(** * MetalSlugFont: glyph resolution, compositing and file naming

    A shallow embedding of [main.py] (the renderer) and of the input guard of
    [src/ui.py], followed by the properties of the renderer.

    Conventions of the embedding:
    - a Python [str] is the list of its Unicode code points ([list N]);
    - the ASCII part of the character classification ([str.isalpha],
      [str.islower], ...) is tabulated; beyond ASCII it is a parameter
      ([unicode_db]), since the Unicode character database belongs to the
      Python runtime and not to the repository;
    - the file system, the faults of the disk, the clock and the log of the
      I/O calls form an explicit [world] threaded through a state and
      exception monad;
    - an image is its [size] and its pixel access [getpixel], as exposed by
      Pillow; [Image.paste] follows Pillow's [Paste.c]. *)

From Stdlib Require Import NArith ZArith String Ascii List Lia DecimalString.
From stdpp Require Import gmap list.

Local Open Scope nat_scope.

(* ===================================================================== *)
(** ** Python strings *)
(* ===================================================================== *)

(** A character is its code point ([N]) and a string the list of its
    characters. A string literal of the source, as its code points: *)
Fixpoint lit (s : string) : list N :=
  match s with
  | EmptyString => []
  | String a r => N_of_ascii a :: lit r
  end.

(** [str(n)] for a Python [int]. *)
Definition str_of_int (z : Z) : list N :=
  lit (NilZero.string_of_int (Z.to_int z)).

(** The part of the Unicode character database that lies beyond ASCII. *)
Record unicode_db := UnicodeDb {
  uc_isalpha : N -> bool;
  uc_islower : N -> bool;
  uc_isdecimal : N -> bool;
  uc_isdigit : N -> bool;
  uc_isnumeric : N -> bool;
  uc_isspace : N -> bool;
  uc_lower : N -> list N
}.

Definition between (lo hi c : N) : bool := ((lo <=? c) && (c <=? hi))%N.
Definition is_ascii (c : N) : bool := (c <? 128)%N.

Definition SPACE : N := 32%N.

Section Str.
Variable ucd : unicode_db.

(** [c.isalpha()], [c.islower()], [c.isdigit()], ... for one character. *)
Definition isalpha (c : N) : bool :=
  if is_ascii c then between 65 90 c || between 97 122 c else uc_isalpha ucd c.
Definition islower (c : N) : bool :=
  if is_ascii c then between 97 122 c else uc_islower ucd c.
Definition isdecimal (c : N) : bool :=
  if is_ascii c then between 48 57 c else uc_isdecimal ucd c.
Definition isdigit (c : N) : bool :=
  if is_ascii c then between 48 57 c else uc_isdigit ucd c.
Definition isnumeric (c : N) : bool :=
  if is_ascii c then between 48 57 c else uc_isnumeric ucd c.
Definition isspace (c : N) : bool :=
  if is_ascii c then between 9 13 c || between 28 32 c else uc_isspace ucd c.
Definition isalnum (c : N) : bool :=
  isalpha c || isdecimal c || isdigit c || isnumeric c.
Definition lower_char (c : N) : list N :=
  if is_ascii c then (if between 65 90 c then [(c + 32)%N] else [c])
  else uc_lower ucd c.

(** [s.isalnum()]: every character is alphanumeric and there is at least
    one character. *)
Definition str_isalnum (s : list N) : bool :=
  match s with
  | [] => false
  | _ => forallb isalnum s
  end.

(** [s.lower()]. *)
Definition str_lower (s : list N) : list N := flat_map lower_char s.

(** [s.split()]: the maximal runs of non-whitespace characters. [cur] is
    the run being read, in reverse. *)
Definition flush (cur : list N) : list (list N) :=
  match cur with
  | [] => []
  | _ => [rev cur]
  end.

Fixpoint split_from (s cur : list N) : list (list N) :=
  match s with
  | [] => flush cur
  | c :: r =>
      if isspace c then flush cur ++ split_from r []
      else split_from r (c :: cur)
  end.

Definition split (s : list N) : list (list N) := split_from s [].

(** [s.strip()]. *)
Fixpoint lstrip (s : list N) : list N :=
  match s with
  | [] => []
  | c :: r => if isspace c then lstrip r else s
  end.

Definition strip (s : list N) : list N := rev (lstrip (rev (lstrip s))).
End Str.

(** [sep.join(parts)]. *)
Fixpoint str_join (sep : list N) (parts : list (list N)) : list N :=
  match parts with
  | [] => []
  | [p] => p
  | p :: rest => p ++ sep ++ str_join sep rest
  end.

(** [s[:n]]. *)
Definition slice_to (n : nat) (s : list N) : list N := take n s.

(* ===================================================================== *)
(** ** [os.path.join] (posixpath) *)
(* ===================================================================== *)

Definition SEP : N := 47%N.

Definition startswith_sep (b : list N) : bool :=
  match b with
  | c :: _ => (c =? SEP)%N
  | [] => false
  end.

Definition endswith_sep (a : list N) : bool :=
  match last a with
  | Some c => (c =? SEP)%N
  | None => false
  end.

Definition join_step (path b : list N) : list N :=
  if startswith_sep b then b
  else if (match path with [] => true | _ => false end) || endswith_sep path
       then path ++ b
       else path ++ SEP :: b.

Definition os_path_join (a : list N) (p : list (list N)) : list N :=
  fold_left join_step p a.

(* ===================================================================== *)
(** ** Constants of [main.py] *)
(* ===================================================================== *)

Definition SPACE_WIDTH : nat := 30.
Definition MAX_FILENAME_LENGTH : nat := 255.

(* ===================================================================== *)
(** ** [generate_filename] *)
(* ===================================================================== *)

(** [datetime.now()]; the fields are those of a Python [datetime], whose year
    is read here in the range 1000..9999 where [%Y] has four digits. *)
Record datetime := DateTime {
  year : N; month : N; day : N; hour : N; minute : N; second : N
}.

Definition digit (n : N) : N := (48 + n mod 10)%N.
Definition two_digits (n : N) : list N := [digit (n / 10); digit n].
Definition four_digits (n : N) : list N :=
  [digit (n / 1000); digit (n / 100); digit (n / 10); digit n].

(** [t.strftime("%Y%m%d-%H%M%S")]. *)
Definition strftime (t : datetime) : list N :=
  four_digits (year t) ++ two_digits (month t) ++ two_digits (day t)
  ++ lit "-" ++ two_digits (hour t) ++ two_digits (minute t)
  ++ two_digits (second t).

Definition generate_filename (ucd : unicode_db) (now : datetime)
    (user_input : list N) : list N :=
  let timestamp := strftime now in
  let sanitized_input :=
    str_join (lit "-") (List.filter (str_isalnum ucd) (split ucd user_input)) in
  let filename := sanitized_input ++ lit "-" ++ timestamp ++ lit ".png" in
  slice_to MAX_FILENAME_LENGTH filename.

(* ===================================================================== *)
(** ** [get_font_paths] *)
(* ===================================================================== *)

Definition font_paths : Type := list N * list N * list N.

Definition get_font_paths (font : Z) (color : list N) : font_paths :=
  let base_path :=
    lit "Assets/FONTS/Font-" ++ str_of_int font ++ lit "/Font-"
    ++ str_of_int font ++ lit "-" ++ color in
  (os_path_join base_path [lit "Letters"],
   os_path_join base_path [lit "Numbers"],
   os_path_join base_path [lit "Symbols"]).

(* ===================================================================== *)
(** ** Images (Pillow) *)
(* ===================================================================== *)

(** An RGBA pixel; each band is a byte. *)
Record rgba := RGBA { red : N; green : N; blue : N; alpha : N }.

(** An image in mode RGBA: its [size] is (width, height) and [getpixel x y]
    is the pixel in column [x] of row [y]; only the pixels inside the size
    are content of the image. *)
Record image := Image { size : nat * nat; getpixel : nat -> nat -> rgba }.

Definition width (im : image) : nat := fst (size im).
Definition height (im : image) : nat := snd (size im).

Definition TRANSPARENT : rgba := RGBA 0 0 0 0.

(** [Image.new('RGBA', size, color)] for a size made of two integers. *)
Definition Image_new (sz : nat * nat) (color : rgba) : image :=
  {| size := sz; getpixel := fun _ _ => color |}.

(** Pillow's [DIV255] and [BLEND] (ImagingUtils.h, Paste.c). *)
Definition DIV255 (a : N) : N :=
  let tmp := (a + 128)%N in
  N.shiftr (N.shiftr tmp 8 + tmp) 8.

Definition BLEND (mask in1 in2 : N) : N :=
  DIV255 (in1 * (255 - mask) + in2 * mask)%N.

(** One pixel of [paste_mask_RGBA]: every band of the destination, the alpha
    band included, is blended with the source under the mask's alpha. *)
Definition blend_pixel (mask : rgba) (out inp : rgba) : rgba :=
  let m := alpha mask in
  RGBA (BLEND m (red out) (red inp)) (BLEND m (green out) (green inp))
       (BLEND m (blue out) (blue inp)) (BLEND m (alpha out) (alpha inp)).

Definition in_box (box : nat * nat) (sz : nat * nat) (x y : nat) : bool :=
  (fst box <=? x) && (x <? fst box + fst sz)
  && (snd box <=? y) && (y <? snd box + snd sz).

(** [dst.paste(src, box, mask)]: the pixels of [dst] under the rectangle of
    [src] placed at [box] are blended; the part of the rectangle outside
    [dst] is clipped (it is not content of the result). *)
Definition paste (dst src : image) (box : nat * nat) (mask : image) : image :=
  {| size := size dst;
     getpixel := fun x y =>
       if in_box box (size src) x y
       then blend_pixel (getpixel mask (x - fst box) (y - snd box))
                        (getpixel dst x y)
                        (getpixel src (x - fst box) (y - snd box))
       else getpixel dst x y |}.

(** Two images with the same size and the same pixels inside it. *)
Definition same_image (a b : image) : Prop :=
  size a = size b /\
  forall x y, x < width a -> y < height a -> getpixel a x y = getpixel b x y.

(* ===================================================================== *)
(** ** Exceptions, the world and the monad of effects *)
(* ===================================================================== *)

(** The classes the handlers of the source tell apart; [OtherException] is
    any other subclass of [Exception] (OSError, TypeError, KeyError...). *)
Inductive exn_kind :=
| FileNotFoundError | UnidentifiedImageError | ValueError | OtherException.

(** An exception: its class, [str(e)] and [e.filename]. *)
Record exn := Exn {
  kind : exn_kind; message : list N; exn_filename : option (list N)
}.

(** A regular file holds an image (read here after [convert('RGBA')]), or
    something [Image.open] does not identify as an image
    ([UnidentifiedImageError]). A file that is identified but fails while it
    is read or decoded (a truncated image, a file that may not be read) is a
    fault of the read, see [world]. *)
Inductive file := ImageFile (im : image) | OtherFile.

Inductive io_call :=
| CallIsFile (p : list N) | CallOpen (p : list N) | CallSave (p : list N).

(** The world: the regular files by path, the faults of the disk (the
    exception a read or a write of a path runs into, if any), the log of the
    I/O calls made so far, latest first, and the wall clock. *)
Record world := World {
  files : gmap (list N) file;
  fault : io_call -> option exn;
  trace : list io_call;
  clock : datetime
}.

Inductive outcome (A : Type) :=
| Return (a : A)
| Raise (e : exn).
Arguments Return {A} a.
Arguments Raise {A} e.

Definition M (A : Type) : Type := world -> world * outcome A.

Definition ret {A} (a : A) : M A := fun w => (w, Return a).
Definition raise {A} (e : exn) : M A := fun w => (w, Raise e).
Definition bind {A B} (m : M A) (k : A -> M B) : M B :=
  fun w => match m w with
           | (w', Return a) => k a w'
           | (w', Raise e) => (w', Raise e)
           end.

(** A computation without effect on the world. *)
Definition lift {A} (o : outcome A) : M A := fun w => (w, o).

Notation "'let!' x ':=' m 'in' k" := (bind m (fun x => k))
  (at level 10, x name, m at level 200, k at level 200).

Definition log (c : io_call) (w : world) : world :=
  {| files := files w; fault := fault w; trace := c :: trace w; clock := clock w |}.

(** [os.path.isfile(p)]: never raises. *)
Definition os_path_isfile (p : list N) : M bool :=
  fun w => (log (CallIsFile p) w,
            Return (match files w !! p with Some _ => true | None => false end)).

Definition errno2 (p : list N) : exn :=
  Exn FileNotFoundError
      (lit "[Errno 2] No such file or directory: '" ++ p ++ lit "'") (Some p).

Definition cannot_identify (p : list N) : exn :=
  Exn UnidentifiedImageError (lit "cannot identify image file '" ++ p ++ lit "'") None.

(** [Image.open(p).convert('RGBA')]. *)
Definition Image_open_convert (p : list N) : M image :=
  fun w =>
    (log (CallOpen p) w,
     match fault w (CallOpen p) with
     | Some e => Raise e
     | None =>
         match files w !! p with
         | None => Raise (errno2 p)
         | Some OtherFile => Raise (cannot_identify p)
         | Some (ImageFile im) => Return im
         end
     end).

(** [img.save(p)]: the file at [p] becomes the image, unless the write runs
    into a fault. *)
Definition Image_save (img : image) (p : list N) : M unit :=
  fun w =>
    match fault w (CallSave p) with
    | Some e => (log (CallSave p) w, Raise e)
    | None =>
        ({| files := <[p := ImageFile img]> (files w); fault := fault w;
            trace := CallSave p :: trace w; clock := clock w |}, Return tt)
    end.

(* ===================================================================== *)
(** ** [get_character_image_path] *)
(* ===================================================================== *)

(** The dictionary [SPECIAL_CHARACTERS], keyed by code point. *)
Definition SPECIAL_CHARACTERS_items : list (N * list N) :=
  [ (33, lit "Exclamation"); (63, lit "Question"); (39, lit "Apostrophe");
    (42, lit "Asterisk"); (41, lit "Bracket-Left"); (125, lit "Bracket-Left-2");
    (93, lit "Bracket-Left-3"); (40, lit "Bracket-Right");
    (123, lit "Bracket-Right-2"); (91, lit "Bracket-Right-3"); (94, lit "Caret");
    (58, lit "Colon"); (36, lit "Dollar"); (61, lit "Equals");
    (62, lit "Greater-than"); (45, lit "Hyphen"); (8734, lit "Infinity");
    (60, lit "Less-than"); (35, lit "Number"); (37, lit "Percent");
    (46, lit "Period"); (43, lit "Plus"); (34, lit "Quotation");
    (59, lit "Semicolon"); (47, lit "Slash"); (126, lit "Tilde");
    (95, lit "Underscore"); (124, lit "Vertical-bar"); (44, lit "Comma");
    (38, lit "Ampersand"); (9829, lit "Heart"); (169, lit "Copyright");
    (9974, lit "Square"); (8544, lit "One"); (8545, lit "Two");
    (8546, lit "Three"); (8547, lit "Four"); (8548, lit "Five");
    (9664, lit "Left"); (9650, lit "Up"); (9654, lit "Right"); (9660, lit "Down");
    (9733, lit "Star"); (8902, lit "Mini-Star"); (9758, lit "Hand");
    (165, lit "Yen"); (9834, lit "Musical-Note"); (65079, lit "Up-Arrow") ]%N.

Definition SPECIAL_CHARACTERS : gmap N (list N) :=
  list_to_map SPECIAL_CHARACTERS_items.

(** [d.get(k, dflt)]. *)
Definition dict_get (d : gmap N (list N)) (k : N) (dflt : list N) : list N :=
  default dflt (d !! k).

Definition PNG : list N := lit ".png".

Definition image_not_found (char : N) : exn :=
  Exn FileNotFoundError
      (lit "Image not found for character '" ++ [char] ++ lit "'") None.

Section Render.
Variable ucd : unicode_db.
(** [DESKTOP_PATH = os.path.expanduser("~/Desktop")], fixed when the module
    is loaded. *)
Variable DESKTOP_PATH : list N.

(** The folder of a letter. *)
Definition case_folder (char : N) : list N :=
  if islower ucd char then lit "Lower-Case" else lit "Upper-Case".

(** The value of [char_img_path] when the existence check is reached, and
    [None] where the function returns [None] before it. *)
Definition char_img_path (char : N) (fp : font_paths) : option (list N) :=
  let '(CHARACTERS_FOLDER, NUMBERS_FOLDER, SYMBOLS_FOLDER) := fp in
  if isalpha ucd char then
    Some (os_path_join CHARACTERS_FOLDER [case_folder char; char :: PNG])
  else if isdigit ucd char then
    Some (os_path_join NUMBERS_FOLDER [char :: PNG])
  else if (char =? SPACE)%N then None
  else
    Some (os_path_join SYMBOLS_FOLDER
            [dict_get SPECIAL_CHARACTERS char [] ++ PNG]).

Definition get_character_image_path (char : N) (fp : font_paths)
    : M (option (list N)) :=
  match char_img_path char fp with
  | None => ret None
  | Some p =>
      let! found := os_path_isfile p in
      if negb found then raise (image_not_found char) else ret (Some p)
  end.

(* =================================================================== *)
(** ** [generate_image_with_filename] *)
(* =================================================================== *)

(** The body of the first loop: the image of one character. *)
Definition load_char (char : N) (fp : font_paths) : M image :=
  if (char =? SPACE)%N then ret (Image_new (SPACE_WIDTH, 1) TRANSPARENT)
  else
    let! char_img_path := get_character_image_path char fp in
    match char_img_path with
    | None => raise (image_not_found char)
    | Some p => Image_open_convert p
    end.

(** The first loop, [for char in text], on the variables [img_height] and
    [char_images]. *)
Fixpoint load_loop (text : list N) (fp : font_paths)
    (img_height : option nat) (char_images : gmap N image)
    : M (option nat * gmap N image) :=
  match text with
  | [] => ret (img_height, char_images)
  | char :: rest =>
      let! char_img := load_char char fp in
      let char_images := <[char := char_img]> char_images in
      let img_height :=
        match img_height with
        | None => Some (height char_img)
        | Some h => Some h
        end in
      load_loop rest fp img_height char_images
  end.

Definition key_error (char : N) : exn :=
  Exn OtherException (lit "'" ++ [char] ++ lit "'") None.

(** The comprehension [chars]: a missing key of [char_images] raises
    [KeyError]. It touches no file. *)
Fixpoint build_chars (text : list N) (char_images : gmap N image)
    : outcome (list (image * nat)) :=
  match text with
  | [] => Return []
  | char :: rest =>
      match char_images !! char with
      | None => Raise (key_error char)
      | Some char_img =>
          let char_width :=
            if (char =? SPACE)%N then SPACE_WIDTH else width char_img in
          match build_chars rest char_images with
          | Return tl => Return ((char_img, char_width) :: tl)
          | Raise e => Raise e
          end
      end
  end.

Definition none_height : exn :=
  Exn OtherException
      (lit "'<' not supported between instances of 'NoneType' and 'int'") None.

(** [Image.new('RGBA', (total_width, img_height), (0, 0, 0, 0))], where
    [img_height] may still be [None]: Pillow's size check then raises
    [TypeError]. *)
Definition Image_new_canvas (total_width : nat) (img_height : option nat)
    : outcome image :=
  match img_height with
  | None => Raise none_height
  | Some h => Return (Image_new (total_width, h) TRANSPARENT)
  end.

(** The second loop, on the variables [img] and [x]. *)
Fixpoint paste_loop (chars : list (image * nat)) (img : image) (x : nat)
    : image :=
  match chars with
  | [] => img
  | (char_img, char_width) :: rest =>
      paste_loop rest (paste img char_img (x, 0) char_img) (x + char_width)
  end.

(** The statements of the [try] block before [img.save]: the canvas. *)
Definition compose (text : list N) (fp : font_paths) : M image :=
  let! st := load_loop text fp None ∅ in
  let '(img_height, char_images) := st in
  let! chars := lift (build_chars text char_images) in
  let total_width := sum_list (map snd chars) in
  let! img := lift (Image_new_canvas total_width img_height) in
  ret (paste_loop chars img 0).

Definition try_block (text filename : list N) (fp : font_paths)
    : M (option (list N) * option (list N)) :=
  let img_path := os_path_join DESKTOP_PATH [filename] in
  let! img := compose text fp in
  let! _ := Image_save img img_path in
  ret (Some filename, None).

(** The [except] clauses, in the order of the source. *)
Definition handler (e : exn) : option (list N) * option (list N) :=
  match kind e with
  | FileNotFoundError => (None, Some (message e))
  | UnidentifiedImageError => (None, Some (lit "Error: Unsupported image format"))
  | ValueError => (None, Some (lit "Error: Invalid input - " ++ message e))
  | OtherException =>
      (None, Some (lit "An unexpected error occurred: " ++ message e ++ lit "."))
  end.

Definition generate_image_with_filename (text filename : list N)
    (fp : font_paths) (w : world)
    : world * (option (list N) * option (list N)) :=
  match try_block text filename fp w with
  | (w', Return r) => (w', r)
  | (w', Raise e) => (w', handler e)
  end.
End Render.

(* ===================================================================== *)
(** ** [generate_and_display_image] ([src/ui.py]) *)
(* ===================================================================== *)

(** The contents of the three input widgets. *)
Record widgets := Widgets {
  text_entry : list N; font_var : list N; color_var : list N
}.

(** What the callback does to the window: message boxes and [root.quit()]. *)
Inductive gui_event :=
| ShowInfo (title message : list N)
| ShowError (title message : list N)
| RootQuit.

Definition CLOSING_MESSAGE : list N := lit "Closing...".
Definition EMPTY_INPUT_MESSAGE : list N :=
  lit "Input text is empty. Please enter some text.".

(** [f"{x}"] for a value that is a string or [None]. *)
Definition format_opt (o : option (list N)) : list N :=
  match o with
  | Some s => s
  | None => lit "None"
  end.

(** Truth value of a string or [None]. *)
Definition truthy (o : option (list N)) : bool :=
  match o with
  | Some (_ :: _) => true
  | _ => false
  end.

Section Ui.
Variable ucd : unicode_db.
(** [int(s)]: the integer, or the [ValueError] raised. *)
Variable py_int : list N -> outcome Z.
(** [generate_image], imported from [main] by [ui.py]; the module at hand
    defines no function of this name, so the callback is read for any
    renderer with this signature. *)
Variable generate_image :
  list N -> list N -> font_paths -> M (option (list N) * option (list N)).

(** The two [except] clauses of the callback. *)
Definition ui_handler (e : exn) : gui_event :=
  match kind e with
  | FileNotFoundError =>
      ShowError (lit "Error")
                (lit "Font file not found: " ++ format_opt (exn_filename e))
  | _ => ShowError (lit "Error") (lit "An error occurred: " ++ message e)
  end.

(** The callback of the button: the world after it, the events shown in
    order, and the exception that escapes it ([int] is outside the [try]). *)
Definition generate_and_display_image (g : widgets) (w : world)
    : world * list gui_event * option exn :=
  let text := text_entry g in
  match py_int (font_var g) with
  | Raise e => (w, [], Some e)
  | Return font =>
      let color := color_var g in
      let closing :=
        if bool_decide (str_lower ucd text = lit "exit")
        then [ShowInfo (lit "Info") CLOSING_MESSAGE; RootQuit] else [] in
      match strip ucd text with
      | [] => (w, closing ++ [ShowError (lit "Error") EMPTY_INPUT_MESSAGE], None)
      | _ :: _ =>
          let filename := generate_filename ucd (clock w) text in
          let font_paths := get_font_paths font color in
          match generate_image text filename font_paths w with
          | (w', Return (img_path, error_message_generate)) =>
              (w',
               closing ++
               [if truthy error_message_generate
                then ShowError (lit "Error")
                       (lit "Error: " ++ format_opt error_message_generate)
                else ShowInfo (lit "Success")
                       (lit "Image successfully generated and saved as: "
                        ++ format_opt img_path)],
               None)
          | (w', Raise e) => (w', closing ++ [ui_handler e], None)
          end
      end
  end.
End Ui.

(* ===================================================================== *)
(** ** Notions used to state the properties *)
(* ===================================================================== *)

(** [logs cs w]: the world [w] after the I/O calls [cs] (in the order they
    were made) that change no file. *)
Definition logs (cs : list io_call) (w : world) : world :=
  {| files := files w; fault := fault w; trace := rev cs ++ trace w;
     clock := clock w |}.

(** A call that only reads. *)
Definition is_read (c : io_call) : bool :=
  match c with
  | CallSave _ => false
  | _ => true
  end.

(** How many times [Image.open] was called on [p] in a log. *)
Definition count_opens (p : list N) (cs : list io_call) : nat :=
  length (List.filter
            (fun c => match c with
                      | CallOpen q => bool_decide (q = p)
                      | _ => false
                      end) cs).

(** A band of a pixel is a byte. *)
Definition is_byte (n : N) : bool := (n <=? 255)%N.
Definition valid_pixel (p : rgba) : bool :=
  is_byte (red p) && is_byte (green p) && is_byte (blue p) && is_byte (alpha p).
Definition opaque (p : rgba) : bool := (alpha p =? 255)%N.

(** What pasting a pixel under its own alpha onto a transparent canvas
    leaves there. *)
Definition on_transparent (p : rgba) : rgba := blend_pixel p TRANSPARENT p.

(** The world after a render that made the calls [cs] and then saved the
    canvas [img] at [p]. *)
Definition saved (cs : list io_call) (p : list N) (img : image) (w : world)
    : world :=
  {| files := <[p := ImageFile img]> (files w); fault := fault w;
     trace := CallSave p :: rev cs ++ trace w; clock := clock w |}.

(** What a glyph leaves at its own column [i] and row [y] of a transparent
    canvas: nothing below its last row. *)
Definition painted (g : image) (i y : nat) : rgba :=
  if y <? height g then on_transparent (getpixel g i y) else TRANSPARENT.

Section Glyphs.
Variable ucd : unicode_db.
Variable w : world.
Variable fp : font_paths.

(** The glyph asset of a character other than the space: the image held by
    the file at its resolved path, when that file exists, can be read and
    decodes. *)
Definition glyph_asset (char : N) : option image :=
  match char_img_path ucd char fp with
  | Some p =>
      match files w !! p, fault w (CallOpen p) with
      | Some (ImageFile im), None => Some im
      | _, _ => None
      end
  | None => None
  end.

(** A character the renderer can draw: the space, or one with an asset. *)
Definition drawable (char : N) : bool :=
  (char =? SPACE)%N
  || match glyph_asset char with Some _ => true | None => false end.

(** A character outside the letters, the digits, the space and the table. *)
Definition unmapped (char : N) : bool :=
  negb (isalpha ucd char) && negb (isdigit ucd char)
  && negb (char =? SPACE)%N
  && match SPECIAL_CHARACTERS !! char with Some _ => false | None => true end.

(** The advance width of a character: [SPACE_WIDTH] for the space, the
    width of the glyph asset otherwise. *)
Definition advance_width (char : N) : nat :=
  if (char =? SPACE)%N then SPACE_WIDTH
  else match glyph_asset char with Some im => width im | None => 0 end.

(** The horizontal offset of the character at position [k] of a text. *)
Definition offset (text : list N) (k : nat) : nat :=
  sum_list (map advance_width (take k text)).

(** The image drawn for a character: the placeholder of the space, or the
    glyph asset. *)
Definition char_image (char : N) : option image :=
  if (char =? SPACE)%N then Some (Image_new (SPACE_WIDTH, 1) TRANSPARENT)
  else glyph_asset char.

(** A character other than the space whose glyph is the file [p]. *)
Definition resolves_to (p : list N) (char : N) : bool :=
  negb (char =? SPACE)%N
  && bool_decide (char_img_path ucd char fp = Some p).

(** A call that looks at the glyph file of a character of the text. *)
Definition asset_read (text : list N) (call : io_call) : Prop :=
  exists c p, c ∈ text /\ char_img_path ucd c fp = Some p
              /\ (call = CallIsFile p \/ call = CallOpen p).

(** The outcome of [load_char] in the world [w]... *)
Definition glyph (char : N) : outcome image :=
  if (char =? SPACE)%N then Return (Image_new (SPACE_WIDTH, 1) TRANSPARENT)
  else
    match char_img_path ucd char fp with
    | None => Raise (image_not_found char)
    | Some p =>
        match files w !! p with
        | None => Raise (image_not_found char)
        | Some f =>
            match fault w (CallOpen p) with
            | Some e => Raise e
            | None =>
                match f with
                | ImageFile im => Return im
                | OtherFile => Raise (cannot_identify p)
                end
            end
        end
    end.

(** ... and the I/O calls it makes, in order. *)
Definition char_calls (char : N) : list io_call :=
  if (char =? SPACE)%N then []
  else
    match char_img_path ucd char fp with
    | None => []
    | Some p =>
        match files w !! p with
        | None => [CallIsFile p]
        | Some _ => [CallIsFile p; CallOpen p]
        end
    end.

(** The outcome of the first loop and its I/O calls, in order. *)
Fixpoint load_result (text : list N) (img_height : option nat)
    (char_images : gmap N image) : outcome (option nat * gmap N image) :=
  match text with
  | [] => Return (img_height, char_images)
  | char :: rest =>
      match glyph char with
      | Raise e => Raise e
      | Return char_img =>
          load_result rest
            (match img_height with
             | None => Some (height char_img)
             | Some h => Some h
             end)
            (<[char := char_img]> char_images)
      end
  end.

Fixpoint load_calls (text : list N) : list io_call :=
  match text with
  | [] => []
  | char :: rest =>
      char_calls char
      ++ match glyph char with
         | Raise _ => []
         | Return _ => load_calls rest
         end
  end.

(** The images of all the characters of a text, or the first failure. *)
Fixpoint glyphs (text : list N) : outcome (list image) :=
  match text with
  | [] => Return []
  | char :: rest =>
      match glyph char with
      | Raise e => Raise e
      | Return g =>
          match glyphs rest with
          | Raise e => Raise e
          | Return gs => Return (g :: gs)
          end
      end
  end.
End Glyphs.

(** The entries of [chars] for a list of images, and the canvas they are
    pasted on: its height is that of the first image. *)
Definition layout (gs : list image) : list (image * nat) :=
  map (fun g => (g, width g)) gs.

Definition blank_canvas (gs : list image) : outcome image :=
  Image_new_canvas (sum_list (map width gs)) (height <$> head gs).

Definition canvas_of (gs : list image) : outcome image :=
  match blank_canvas gs with
  | Return img => Return (paste_loop (layout gs) img 0)
  | Raise e => Raise e
  end.

(** The outcome of [compose] in a world, as a function of the world. *)
Definition compose_result (ucd : unicode_db) (w : world) (fp : font_paths)
    (text : list N) : outcome image :=
  match glyphs ucd w fp text with
  | Return gs => canvas_of gs
  | Raise e => Raise e
  end.

(* ===================================================================== *)
(** ** Sample data for the examples *)
(* ===================================================================== *)

(** A fragment of the Unicode database beyond ASCII: the Latin-1 letters,
    the hiragana (alphabetic, without case), superscript two (a digit that is
    not a decimal), the no-break and ideographic spaces. Every other code
    point is left unclassified. *)
Definition latin1_kana : unicode_db :=
  {| uc_isalpha := fun c =>
       between 192 214 c || between 216 246 c || between 248 255 c
       || between 12353 12438 c;
     uc_islower := fun c => between 223 246 c || between 248 255 c;
     uc_isdecimal := fun _ => false;
     uc_isdigit := fun c => (c =? 178)%N;
     uc_isnumeric := fun c => (c =? 178)%N;
     uc_isspace := fun c => (c =? 133)%N || (c =? 160)%N || (c =? 12288)%N;
     uc_lower := fun c =>
       if between 192 214 c || between 216 222 c then [(c + 32)%N] else [c] |}.

(** [int] on the strings of the font selector. *)
Definition int_1_to_5 (s : list N) : outcome Z :=
  match s with
  | [c] => if between 49 53 c then Return (Z.of_N c - 48)%Z
           else Raise (Exn ValueError (lit "invalid literal for int()") None)
  | _ => Raise (Exn ValueError (lit "invalid literal for int()") None)
  end.

Definition no_fault : io_call -> option exn := fun _ => None.

Definition noon : datetime := DateTime 2024 1 31 12 0 5.

Definition HOME_DESKTOP : list N := lit "/home/user/Desktop".

(** A glyph of one colour. *)
Definition solid (w h : nat) (p : rgba) : image := Image_new (w, h) p.

Definition RED : rgba := RGBA 255 0 0 255.
Definition GREEN : rgba := RGBA 0 255 0 255.

Definition blue_font : font_paths := get_font_paths 1 (lit "Blue").

(** A small asset store: [A] (3 x 4, red), [B] (2 x 4, green), [I] (1 x 4,
    red), [M] (2 x 4, red), [a] and the exclamation mark are images; the file
    of [Z] is not an image. *)
Definition assets : gmap (list N) file :=
  list_to_map
    [ (lit "Assets/FONTS/Font-1/Font-1-Blue/Letters/Upper-Case/A.png",
       ImageFile (solid 3 4 RED));
      (lit "Assets/FONTS/Font-1/Font-1-Blue/Letters/Upper-Case/B.png",
       ImageFile (solid 2 4 GREEN));
      (lit "Assets/FONTS/Font-1/Font-1-Blue/Letters/Upper-Case/I.png",
       ImageFile (solid 1 4 RED));
      (lit "Assets/FONTS/Font-1/Font-1-Blue/Letters/Upper-Case/M.png",
       ImageFile (solid 2 4 RED));
      (lit "Assets/FONTS/Font-1/Font-1-Blue/Letters/Lower-Case/a.png",
       ImageFile (solid 2 3 GREEN));
      (lit "Assets/FONTS/Font-1/Font-1-Blue/Symbols/Exclamation.png",
       ImageFile (solid 1 4 RED));
      (lit "Assets/FONTS/Font-1/Font-1-Blue/Letters/Upper-Case/Z.png",
       OtherFile) ].

Definition desk : world :=
  {| files := assets; fault := no_fault; trace := []; clock := noon |}.

Definition OUT : list N := lit "out.png".
Definition DESK_OUT : list N := os_path_join HOME_DESKTOP [OUT].

(** A renderer with the signature of [generate_image], for the examples: it
    draws nothing, leaves a mark in the log and reports success. *)
Definition marking_renderer (text filename : list N) (fp : font_paths)
    : M (option (list N) * option (list N)) :=
  fun w => (log (CallSave filename) w, Return (Some filename, None)).

Definition A_PNG : list N :=
  lit "Assets/FONTS/Font-1/Font-1-Blue/Letters/Upper-Case/A.png".

(** The euro sign: not a letter, not a digit, not in the table. *)
Definition EURO : N := 8364%N.

(** The hiragana letter a: alphabetic, without case. *)
Definition HIRAGANA_A : N := 12354%N.

(** One render on the sample desk. *)
Definition render (text : list N) : world * (option (list N) * option (list N)) :=
  generate_image_with_filename latin1_kana HOME_DESKTOP text OUT blue_font desk.

(* ===================================================================== *)
(** ** Further notions *)
(* ===================================================================== *)

(** [sanitized_input] of [generate_filename]. *)
Definition sanitized_input (ucd : unicode_db) (user_input : list N) : list N :=
  str_join (lit "-") (List.filter (str_isalnum ucd) (split ucd user_input)).

(** The characters a generated file name is made of: alphanumeric ones, the
    hyphen and the dot. *)
Definition filename_char (ucd : unicode_db) (c : N) : bool :=
  isalnum ucd c || (c =? 45)%N || (c =? 46)%N.

(** The image drawn for a space. *)
Definition PLACEHOLDER : image := Image_new (SPACE_WIDTH, 1) TRANSPARENT.

(** [base_path] of [get_font_paths]. *)
Definition font_base (font : Z) (color : list N) : list N :=
  lit "Assets/FONTS/Font-" ++ str_of_int font ++ lit "/Font-"
  ++ str_of_int font ++ lit "-" ++ color.

(* ===================================================================== *)
(** ** [on_font_change] ([src/ui.py]) *)
(* ===================================================================== *)





(* ===================================================================== *)
(** ** More sample data *)
(* ===================================================================== *)

Definition Z_PNG : list N :=
  lit "Assets/FONTS/Font-1/Font-1-Blue/Letters/Upper-Case/Z.png".
Definition B_SMALL_PNG : list N :=
  lit "Assets/FONTS/Font-1/Font-1-Blue/Letters/Lower-Case/b.png".
Definition DOT_PNG : list N :=
  lit "Assets/FONTS/Font-1/Font-1-Blue/Symbols/.png".

(** The desk with a desktop folder that cannot be written. *)
Definition permission_denied : exn :=
  Exn OtherException (lit "[Errno 13] Permission denied") None.

Definition locked_desk : world :=
  {| files := assets;
     fault := fun call => match call with
                          | CallSave _ => Some permission_denied
                          | _ => None
                          end;
     trace := []; clock := noon |}.

(** The desk with a truncated image in the place of [B]: Pillow identifies
    the file and fails while decoding it. *)
Definition truncated : exn :=
  Exn OtherException (lit "image file is truncated") None.

Definition truncated_desk : world :=
  {| files := assets;
     fault := fun call =>
       match call with
       | CallOpen p =>
           if bool_decide
                (p = lit "Assets/FONTS/Font-1/Font-1-Blue/Letters/Upper-Case/B.png")
           then Some truncated else None
       | _ => None
       end;
     trace := []; clock := noon |}.

(** The desk with an image named [.png] in the symbols folder. *)
Definition dotted_desk : world :=
  {| files := <[DOT_PNG := ImageFile (solid 5 4 GREEN)]> assets;
     fault := no_fault; trace := []; clock := noon |}.

(** The canvas of "AB". *)
Definition canvas_AB : image :=
  paste_loop (layout [solid 3 4 RED; solid 2 4 GREEN])
    (Image_new (5, 4) TRANSPARENT) 0.

Definition AB_widgets : widgets := Widgets (lit "AB") (lit "1") (lit "Blue").
Definition exit_widgets : widgets := Widgets (lit "Exit") (lit "1") (lit "Blue").
Definition TMP_OUT : list N := lit "/tmp/out.png".

(* ===================================================================== *)
(** * Properties *)
(* ===================================================================== *)

(** ** The special-character table *)

(** No key is written twice in the dictionary of the source, so the map holds
    each of its 48 entries. *)
Lemma SPECIAL_CHARACTERS_keys :
  NoDup (map fst SPECIAL_CHARACTERS_items)
  /\ length SPECIAL_CHARACTERS_items = 48.
Proof.
  split; [|reflexivity].
  apply (bool_decide_unpack _). vm_compute. reflexivity.
Qed.

Lemma SPECIAL_CHARACTERS_exclamation :
  SPECIAL_CHARACTERS !! 33%N = Some (lit "Exclamation").
Proof. vm_compute. reflexivity. Qed.

(** ** The effects of the first loop *)

Section RenderFacts.
Variable ucd : unicode_db.

Lemma logs_nil w : logs [] w = w.
Proof. destruct w; reflexivity. Qed.

Lemma logs_logs cs1 cs2 w : logs cs2 (logs cs1 w) = logs (cs1 ++ cs2) w.
Proof. unfold logs; simpl. by rewrite rev_app_distr, app_assoc. Qed.

Lemma log_logs c cs w : log c (logs cs w) = logs (cs ++ [c]) w.
Proof. unfold log, logs; simpl. by rewrite rev_app_distr. Qed.

(** Loading one character changes the log only, and its outcome is
    [glyph]. *)
Lemma load_char_run c fp w cs :
  load_char ucd c fp (logs cs w)
  = (logs (cs ++ char_calls ucd w fp c) w, glyph ucd w fp c).
Proof.
  unfold load_char, glyph, char_calls.
  destruct (c =? SPACE)%N.
  { by rewrite app_nil_r. }
  unfold bind, get_character_image_path.
  destruct (char_img_path ucd c fp) as [p|]; simpl.
  2:{ unfold ret, raise. by rewrite app_nil_r. }
  unfold bind, os_path_isfile; simpl.
  destruct (files w !! p) as [f|] eqn:Hf; simpl.
  - unfold ret, Image_open_convert; simpl. rewrite Hf.
    rewrite !log_logs, <- app_assoc. simpl.
    destruct (fault w (CallOpen p)); [done|]. by destruct f.
  - unfold raise. by rewrite log_logs.
Qed.

Lemma load_loop_run fp w text : forall h imgs cs,
  load_loop ucd text fp h imgs (logs cs w)
  = (logs (cs ++ load_calls ucd w fp text) w, load_result ucd w fp text h imgs).
Proof.
  induction text as [|c rest IH]; intros h imgs cs; simpl.
  { unfold ret. by rewrite app_nil_r. }
  unfold bind. rewrite load_char_run.
  destruct (glyph ucd w fp c) as [g|e].
  - rewrite IH. by rewrite <- app_assoc.
  - by rewrite app_nil_r.
Qed.
End RenderFacts.

(** ** The images of a text *)

Section GlyphFacts.
Variable ucd : unicode_db.
Variable w : world.
Variable fp : font_paths.

Lemma glyph_space : glyph ucd w fp SPACE = Return (Image_new (SPACE_WIDTH, 1) TRANSPARENT).
Proof. reflexivity. Qed.

(** A non-space character loads exactly when it has an asset. *)
Lemma glyph_asset_iff c g :
  (c =? SPACE)%N = false ->
  glyph ucd w fp c = Return g <-> glyph_asset ucd w fp c = Some g.
Proof.
  intros Hc. unfold glyph, glyph_asset. rewrite Hc.
  destruct (char_img_path ucd c fp) as [p|]; [|split; discriminate].
  destruct (files w !! p) as [[im|]|]; destruct (fault w (CallOpen p));
    split; intros H; try discriminate; congruence.
Qed.

Lemma glyph_width c g :
  glyph ucd w fp c = Return g -> width g = advance_width ucd w fp c.
Proof.
  intros H. unfold advance_width.
  destruct (c =? SPACE)%N eqn:Hc.
  - unfold glyph in H. rewrite Hc in H. by inversion H.
  - apply glyph_asset_iff in H; [|done]. by rewrite H.
Qed.

Lemma glyph_drawable c :
  drawable ucd w fp c = true <-> exists g, glyph ucd w fp c = Return g.
Proof.
  unfold drawable. destruct (c =? SPACE)%N eqn:Hc; simpl.
  - split; [|done]. intros _. unfold glyph. rewrite Hc. eauto.
  - split.
    + destruct (glyph_asset ucd w fp c) as [g|] eqn:Hg; [|done].
      intros _. exists g. by apply glyph_asset_iff.
    + intros [g Hg]. apply glyph_asset_iff in Hg; [|done]. by rewrite Hg.
Qed.

Lemma glyphs_drawable text :
  forallb (drawable ucd w fp) text = true ->
  exists gs, glyphs ucd w fp text = Return gs.
Proof.
  induction text as [|c rest IH]; simpl; [eauto|].
  intros [Hc Hr]%andb_prop. apply glyph_drawable in Hc as [g Hg].
  destruct (IH Hr) as [gs Hgs]. rewrite Hg, Hgs. eauto.
Qed.

Lemma glyphs_lookup text gs :
  glyphs ucd w fp text = Return gs ->
  length gs = length text /\
  forall k c, text !! k = Some c ->
    exists g, gs !! k = Some g /\ glyph ucd w fp c = Return g.
Proof.
  revert gs. induction text as [|c rest IH]; simpl; intros gs H.
  { inversion H. split; [done|]. intros k c Hk. by destruct k. }
  destruct (glyph ucd w fp c) as [g|] eqn:Hg; [|done].
  destruct (glyphs ucd w fp rest) as [gs'|] eqn:Hr; [|done].
  inversion H; subst. destruct (IH gs' eq_refl) as [Hl Hk]. split.
  - simpl. by rewrite Hl.
  - intros [|k] c' Hc'; simpl in *.
    + inversion Hc'; subst. eauto.
    + eauto.
Qed.

Lemma glyphs_widths text gs :
  glyphs ucd w fp text = Return gs ->
  map width gs = map (advance_width ucd w fp) text.
Proof.
  revert gs. induction text as [|c rest IH]; simpl; intros gs H.
  { by inversion H. }
  destruct (glyph ucd w fp c) as [g|] eqn:Hg; [|done].
  destruct (glyphs ucd w fp rest) as [gs'|] eqn:Hr; [|done].
  inversion H; subst. simpl. by rewrite (IH gs' eq_refl), (glyph_width c g Hg).
Qed.

(** The first loop ends with the image of every character of the text in
    [char_images] and with the height of the first image, unless a height
    was set before. *)
Lemma load_result_ok text : forall gs h imgs,
  glyphs ucd w fp text = Return gs ->
  exists imgs',
    load_result ucd w fp text h imgs
    = Return (match h with Some _ => h | None => height <$> head gs end, imgs')
    /\ (forall c g, c ∈ text -> glyph ucd w fp c = Return g -> imgs' !! c = Some g)
    /\ (forall c, c ∉ text -> imgs' !! c = imgs !! c).
Proof.
  induction text as [|c rest IH]; simpl; intros gs h imgs H.
  { inversion H. exists imgs. split; [by destruct h|]. split; [|done].
    intros c g Hc. by apply elem_of_nil in Hc. }
  destruct (glyph ucd w fp c) as [g|] eqn:Hg; [|done].
  destruct (glyphs ucd w fp rest) as [gs'|] eqn:Hr; [|done].
  inversion H; subst.
  destruct (IH gs' (match h with None => Some (height g) | Some h0 => Some h0 end)
              (<[c:=g]> imgs) eq_refl) as (imgs' & Hres & Hin & Hout).
  exists imgs'. split; [|split].
  - rewrite Hres. by destruct h.
  - intros c' g' Hc' Hg'. destruct (decide (c' ∈ rest)) as [Hi|Hi]; [eauto|].
    apply elem_of_cons in Hc' as [->|?]; [|done].
    rewrite (Hout c Hi), lookup_insert_eq. congruence.
  - intros c' Hc'. apply not_elem_of_cons in Hc' as [Hne Hc'].
    rewrite (Hout c' Hc'). rewrite lookup_insert_ne; [reflexivity|congruence].
Qed.

Lemma load_result_fail text : forall e h imgs,
  glyphs ucd w fp text = Raise e ->
  load_result ucd w fp text h imgs = Raise e.
Proof.
  induction text as [|c rest IH]; simpl; intros e h imgs H; [done|].
  destruct (glyph ucd w fp c) as [g|] eqn:Hg; [|congruence].
  destruct (glyphs ucd w fp rest) as [gs'|] eqn:Hr; [done|].
  inversion H; subst. by apply IH.
Qed.

Lemma build_chars_ok (imgs : gmap N image) text : forall gs,
  glyphs ucd w fp text = Return gs ->
  (forall c g, c ∈ text -> glyph ucd w fp c = Return g -> imgs !! c = Some g) ->
  build_chars text imgs = Return (layout gs).
Proof.
  induction text as [|c rest IH]; simpl; intros gs H Himgs.
  { by inversion H. }
  destruct (glyph ucd w fp c) as [g|] eqn:Hg; [|done].
  destruct (glyphs ucd w fp rest) as [gs'|] eqn:Hr; [|done].
  inversion H; subst.
  rewrite (Himgs c g); [|by left|done].
  rewrite (IH gs' eq_refl).
  2:{ intros c' g' Hc'. apply Himgs. by right. }
  simpl. do 3 f_equal.
  destruct (c =? SPACE)%N eqn:Hc; [|done].
  unfold glyph in Hg. rewrite Hc in Hg. by inversion Hg.
Qed.
End GlyphFacts.

Section ComposeFacts.
Variable ucd : unicode_db.

Lemma sum_layout gs : sum_list (map snd (layout gs)) = sum_list (map width gs).
Proof. unfold layout. by rewrite map_map. Qed.

(** [compose] changes the log only, by the calls of the first loop, and its
    outcome is [compose_result]. *)
Lemma compose_run text fp w cs :
  compose ucd text fp (logs cs w)
  = (logs (cs ++ load_calls ucd w fp text) w, compose_result ucd w fp text).
Proof.
  unfold compose, bind, compose_result. rewrite load_loop_run.
  destruct (glyphs ucd w fp text) as [gs|e] eqn:Hgs.
  - destruct (load_result_ok ucd w fp text gs None ∅ Hgs) as (imgs & -> & Hin & _).
    unfold lift. rewrite (build_chars_ok ucd w fp imgs text gs Hgs Hin).
    rewrite sum_layout. unfold canvas_of, blank_canvas.
    by destruct (Image_new_canvas _ _).
  - by rewrite (load_result_fail ucd w fp text e).
Qed.
End ComposeFacts.

(** ** The second loop *)

Section PasteFacts.
Lemma paste_loop_size chars : forall img x, size (paste_loop chars img x) = size img.
Proof.
  induction chars as [|[g wg] rest IH]; intros img x; simpl; [done|].
  by rewrite IH.
Qed.

Lemma in_box_row x0 sz x y :
  in_box (x0, 0) sz x y = (x0 <=? x) && (x <? x0 + fst sz) && (y <? snd sz).
Proof. unfold in_box. simpl. by rewrite andb_true_r. Qed.

(** A paste leaves the columns outside its rectangle as they were. *)
Lemma paste_outside dst src x0 mask x y :
  x < x0 \/ x0 + width src <= x ->
  getpixel (paste dst src (x0, 0) mask) x y = getpixel dst x y.
Proof.
  intros H. unfold paste; simpl. rewrite in_box_row. unfold width in H.
  destruct (x0 <=? x) eqn:H1; [|done]. destruct (x <? x0 + fst (size src)) eqn:H2; [|done].
  apply Nat.leb_le in H1. apply Nat.ltb_lt in H2. lia.
Qed.

Lemma paste_inside dst src x0 i y :
  i < width src ->
  getpixel (paste dst src (x0, 0) src) (x0 + i) y
  = if y <? height src
    then blend_pixel (getpixel src i y) (getpixel dst (x0 + i) y) (getpixel src i y)
    else getpixel dst (x0 + i) y.
Proof.
  intros H. unfold paste; simpl. rewrite in_box_row. unfold width in H.
  replace (x0 <=? x0 + i) with true by (symmetry; apply Nat.leb_le; lia).
  replace (x0 + i <? x0 + fst (size src)) with true
    by (symmetry; apply Nat.ltb_lt; lia).
  simpl. replace (x0 + i - x0) with i by lia. by rewrite Nat.sub_0_r.
Qed.

(** The second loop never touches the columns left of its cursor. *)
Lemma paste_loop_left chars : forall img x0 x y,
  x < x0 -> getpixel (paste_loop chars img x0) x y = getpixel img x y.
Proof.
  induction chars as [|[g wg] rest IH]; intros img x0 x y H; simpl; [done|].
  rewrite IH by lia. apply paste_outside. by left.
Qed.

(** The pixels of the [k]-th image end up, blended with what was there, at
    the cursor advanced by the widths of the images before it. *)
Lemma paste_loop_pixel gs : forall img x0 k g i y,
  gs !! k = Some g -> i < width g ->
  let x := x0 + sum_list (map width (take k gs)) + i in
  getpixel (paste_loop (layout gs) img x0) x y
  = if y <? height g
    then blend_pixel (getpixel g i y) (getpixel img x y) (getpixel g i y)
    else getpixel img x y.
Proof.
  induction gs as [|g0 rest IH]; intros img x0 k g i y Hk Hi; [done|].
  destruct k as [|k]; simpl in *.
  - inversion Hk; subst. rewrite Nat.add_0_r.
    rewrite paste_loop_left by lia. by apply paste_inside.
  - specialize (IH (paste img g0 (x0, 0) g0) (x0 + width g0) k g i y Hk Hi).
    cbv zeta in IH.
    replace (x0 + (width g0 + sum_list (map width (take k rest))) + i)
      with (x0 + width g0 + sum_list (map width (take k rest)) + i) by lia.
    fold (layout rest). rewrite IH.
    rewrite paste_outside by (right; lia). done.
Qed.
End PasteFacts.

(** ** One run of [generate_image_with_filename] *)

Section RunFacts.
Variable ucd : unicode_db.
Variable DESKTOP_PATH : list N.

Lemma handler_shape e : exists m, handler e = (None, Some m).
Proof. unfold handler. destruct (kind e); eauto. Qed.

(** One run of the renderer, case by case. *)
Lemma generate_run text filename fp w :
  let p := os_path_join DESKTOP_PATH [filename] in
  let cs := load_calls ucd w fp text in
  generate_image_with_filename ucd DESKTOP_PATH text filename fp w
  = match compose_result ucd w fp text with
    | Raise e => (logs cs w, handler e)
    | Return img =>
        match fault w (CallSave p) with
        | Some e => (log (CallSave p) (logs cs w), handler e)
        | None => (saved cs p img w, (Some filename, None))
        end
    end.
Proof.
  intros p cs. unfold generate_image_with_filename, try_block, bind.
  rewrite <- (logs_nil w) at 1. rewrite compose_run. simpl.
  fold p. fold cs.
  destruct (compose_result ucd w fp text) as [img|e]; [|done].
  unfold Image_save. simpl. fold p.
  subst p. unfold os_path_join. simpl.
  destruct (fault w _); reflexivity.
Qed.

Lemma canvas_of_size gs canvas :
  canvas_of gs = Return canvas ->
  exists g0 rest, gs = g0 :: rest /\
    size canvas = (sum_list (map width gs), height g0).
Proof.
  unfold canvas_of, blank_canvas. destruct gs as [|g0 rest]; [done|].
  cbn [head fmap option_fmap option_map Image_new_canvas].
  intros H. inversion H. exists g0, rest. split; [done|].
  by rewrite paste_loop_size.
Qed.

Lemma canvas_of_ok g0 rest : exists canvas, canvas_of (g0 :: rest) = Return canvas.
Proof. unfold canvas_of, blank_canvas. simpl. eauto. Qed.
End RunFacts.

(** ** The calls of a run *)

Section Reads.
Variable ucd : unicode_db.
Variable w : world.
Variable fp : font_paths.

Lemma char_calls_reads c call :
  call ∈ char_calls ucd w fp c ->
  exists p, char_img_path ucd c fp = Some p
            /\ (call = CallIsFile p \/ call = CallOpen p).
Proof.
  unfold char_calls. destruct (c =? SPACE)%N; [by intros ?%elem_of_nil|].
  destruct (char_img_path ucd c fp) as [p|]; [|by intros ?%elem_of_nil].
  intros H. exists p. split; [reflexivity|].
  destruct (files w !! p).
  - apply elem_of_cons in H as [->|H]; [by left|].
    apply list_elem_of_singleton in H as ->. by right.
  - apply list_elem_of_singleton in H as ->. by left.
Qed.

Lemma load_calls_reads text :
  Forall (asset_read ucd fp text) (load_calls ucd w fp text).
Proof.
  apply Forall_forall. induction text as [|c rest IH]; simpl.
  { by intros call ?%elem_of_nil. }
  intros call [H|H]%elem_of_app.
  - apply char_calls_reads in H as (p & Hp & Hc).
    exists c, p. split; [by left|done].
  - destruct (glyph ucd w fp c); [|by apply elem_of_nil in H].
    destruct (IH call H) as (c' & p & Hin & Hp & Hc).
    exists c', p. split; [by right|done].
Qed.

Lemma asset_read_is_read text call :
  asset_read ucd fp text call -> is_read call = true.
Proof. by intros (c & p & _ & _ & [-> | ->]). Qed.

Lemma glyphs_app_fail pre c post e gs :
  glyphs ucd w fp pre = Return gs ->
  glyph ucd w fp c = Raise e ->
  glyphs ucd w fp (pre ++ c :: post) = Raise e.
Proof.
  revert gs. induction pre as [|c0 pre IH]; simpl; intros gs Hpre Hc.
  { by rewrite Hc. }
  destruct (glyph ucd w fp c0); [|done].
  destruct (glyphs ucd w fp pre) as [gs'|] eqn:Hp; [|done].
  by rewrite (IH gs' eq_refl Hc).
Qed.

Lemma unmapped_path c L Nm S :
  unmapped ucd c = true ->
  (c =? SPACE)%N = false /\
  char_img_path ucd c (L, Nm, S) = Some (os_path_join S [lit ".png"]).
Proof.
  unfold unmapped, char_img_path, dict_get.
  destruct (isalpha ucd c); [discriminate|].
  destruct (isdigit ucd c); [discriminate|].
  destruct (c =? SPACE)%N; [discriminate|].
  destruct (SPECIAL_CHARACTERS !! c); [discriminate|].
  intros _. split; reflexivity.
Qed.
End Reads.


(** ** Reads and pixels *)

Section Counting.
Lemma count_opens_app p a b :
  count_opens p (a ++ b) = count_opens p a + count_opens p b.
Proof. unfold count_opens. by rewrite List.filter_app, length_app. Qed.

Lemma count_opens_rev p cs : count_opens p (rev cs) = count_opens p cs.
Proof.
  induction cs as [|c cs IH]; [done|]. simpl rev.
  rewrite count_opens_app, IH. change (c :: cs) with ([c] ++ cs).
  rewrite count_opens_app. lia.
Qed.

Variable ucd : unicode_db.
Variable w : world.
Variable fp : font_paths.

Lemma char_calls_opens p c g :
  glyph ucd w fp c = Return g ->
  count_opens p (char_calls ucd w fp c)
  = if resolves_to ucd fp p c then 1 else 0.
Proof.
  unfold glyph, char_calls, resolves_to.
  destruct (c =? SPACE)%N; [done|].
  destruct (char_img_path ucd c fp) as [q|]; [|done].
  destruct (files w !! q); [|done]. intros _.
  unfold count_opens. simpl.
  destruct (decide (q = p)) as [->|Hne].
  - by rewrite !bool_decide_eq_true_2.
  - rewrite !bool_decide_eq_false_2; [done|congruence|done].
Qed.

(** When every character loads, each occurrence of a character opens its
    file once. *)
Lemma load_calls_opens p text : forall gs,
  glyphs ucd w fp text = Return gs ->
  count_opens p (load_calls ucd w fp text)
  = length (List.filter (resolves_to ucd fp p) text).
Proof.
  induction text as [|c rest IH]; intros gs H; [done|]. simpl in *.
  destruct (glyph ucd w fp c) as [g|] eqn:Hg; [|done].
  destruct (glyphs ucd w fp rest) as [gs'|] eqn:Hr; [|done].
  rewrite count_opens_app, (char_calls_opens p c g Hg), (IH gs' eq_refl).
  by destruct (resolves_to ucd fp p c).
Qed.

Lemma char_image_glyph c g :
  char_image ucd w fp c = Some g <-> glyph ucd w fp c = Return g.
Proof.
  unfold char_image. destruct (c =? SPACE)%N eqn:Hc.
  - unfold glyph. rewrite Hc. split; intros H; by inversion H.
  - symmetry. by apply glyph_asset_iff.
Qed.

Lemma offset_widths text gs k :
  glyphs ucd w fp text = Return gs ->
  offset ucd w fp text k = sum_list (map width (take k gs)).
Proof.
  intros H. unfold offset.
  by rewrite <- firstn_map, <- (glyphs_widths ucd w fp text gs H), firstn_map.
Qed.

Lemma offset_step text k c :
  text !! k = Some c ->
  offset ucd w fp text (S k)
  = offset ucd w fp text k + advance_width ucd w fp c.
Proof.
  intros H. unfold offset. rewrite (take_S_r _ _ _ H), map_app, sum_list_with_app.
  simpl. lia.
Qed.

Lemma canvas_pixel gs canvas k g i y :
  canvas_of gs = Return canvas -> gs !! k = Some g -> i < width g ->
  getpixel canvas (sum_list (map width (take k gs)) + i) y = painted g i y.
Proof.
  unfold canvas_of. destruct (blank_canvas gs) as [img|] eqn:Hb; [|done].
  intros H Hk Hi. inversion H; subst.
  pose proof (paste_loop_pixel gs img 0 k g i y Hk Hi) as Hp.
  cbv zeta in Hp. rewrite Nat.add_0_l in Hp. rewrite Hp.
  unfold blank_canvas, Image_new_canvas in Hb.
  destruct (height <$> head gs); [|done]. inversion Hb; subst.
  reflexivity.
Qed.

(** The content of the canvas: its width is the sum of the advance widths
    and every character of the text has its image at its offset. *)
Lemma compose_pixels text canvas :
  compose_result ucd w fp text = Return canvas ->
  width canvas = offset ucd w fp text (length text)
  /\ forall k c, text !! k = Some c ->
       exists g, char_image ucd w fp c = Some g
         /\ width g = advance_width ucd w fp c
         /\ forall i y, i < width g ->
              getpixel canvas (offset ucd w fp text k + i) y = painted g i y.
Proof.
  unfold compose_result.
  destruct (glyphs ucd w fp text) as [gs|] eqn:Hgs; [|done].
  intros Hc. split.
  - destruct (canvas_of_size gs canvas Hc) as (g0 & r & _ & Hsz).
    unfold width at 1. rewrite Hsz. cbn [fst].
    rewrite (glyphs_widths ucd w fp text gs Hgs). unfold offset.
    by rewrite firstn_all.
  - intros k c Hk.
    destruct (glyphs_lookup ucd w fp text gs Hgs) as [_ Hl].
    destruct (Hl k c Hk) as (g & Hgk & Hg).
    exists g. split; [by apply char_image_glyph|].
    split; [by apply glyph_width|].
    intros i y Hi. rewrite (offset_widths text gs k Hgs).
    by apply canvas_pixel.
Qed.
End Counting.

Section Pixels.
Lemma DIV255_byte r : (r <= 255)%N -> DIV255 (r * 255) = r.
Proof.
  intros H.
  assert (forallb (fun n => (DIV255 (n * 255) =? n)%N)
            (map N.of_nat (seq 0 256)) = true) as Hall by (vm_compute; reflexivity).
  rewrite forallb_forall in Hall.
  apply N.eqb_eq, Hall, in_map_iff. exists (N.to_nat r).
  split; [apply N2Nat.id|]. apply in_seq. lia.
Qed.

Lemma BLEND_opaque d s : (s <= 255)%N -> BLEND 255 d s = s.
Proof.
  intros H. unfold BLEND. rewrite N.sub_diag, N.mul_0_r, N.add_0_l.
  by apply DIV255_byte.
Qed.

(** An opaque pixel lands on the canvas as it is. *)
Lemma on_transparent_opaque p :
  valid_pixel p = true -> opaque p = true -> on_transparent p = p.
Proof.
  destruct p as [r g b a]. unfold valid_pixel, opaque, is_byte; simpl.
  intros Hv Ha. apply N.eqb_eq in Ha. subst a.
  repeat (apply andb_prop in Hv as [Hv ?]).
  unfold on_transparent, blend_pixel; simpl.
  rewrite !BLEND_opaque; [done|by apply N.leb_le..].
Qed.
End Pixels.

(* ===================================================================== *)
(** * The properties of the specification *)
(* ===================================================================== *)

Section Offsets.
Variable ucd : unicode_db.

Lemma offset_le_next w fp text k :
offset ucd w fp text k <= offset ucd w fp text (S k).
Proof.
destruct (text !! k) as [c|] eqn:Hk.
- rewrite (offset_step ucd w fp text k c Hk). lia.
- apply lookup_ge_None in Hk. unfold offset.
  rewrite !firstn_all2 by lia. done.
Qed.

Lemma offset_mono w fp text j k :
j <= k -> offset ucd w fp text j <= offset ucd w fp text k.
Proof.
induction 1 as [|k Hjk IH]; [done|].
pose proof (offset_le_next w fp text k). lia.
Qed.

(** The columns of a glyph end where those of any later glyph begin. *)
Lemma offset_disjoint w fp text j k cj :
j < k -> text !! j = Some cj ->
offset ucd w fp text j + advance_width ucd w fp cj <= offset ucd w fp text k.
Proof.
intros Hjk Hj. rewrite <- (offset_step ucd w fp text j cj Hj).
apply offset_mono. lia.
Qed.

Lemma lstrip_spaces s : forallb (isspace ucd) s = true -> lstrip ucd s = [].
Proof.
induction s as [|c s IH]; simpl; [done|].
intros [Hc Hs]%andb_prop. rewrite Hc. by apply IH.
Qed.

Lemma strip_spaces s : forallb (isspace ucd) s = true -> strip ucd s = [].
Proof. intros H. unfold strip. by rewrite (lstrip_spaces s H). Qed.

Lemma compose_returns text fp w w' canvas :
compose ucd text fp w = (w', Return canvas) ->
compose_result ucd w fp text = Return canvas.
Proof.
rewrite <- (logs_nil w) at 1. rewrite compose_run. by intros [= _ ->].
Qed.

Lemma count_opens_save p q cs :
count_opens p (CallSave q :: cs) = count_opens p cs.
Proof. reflexivity. Qed.

Lemma compose_height c rest fp w canvas :
compose_result ucd w fp (c :: rest) = Return canvas ->
exists g, char_image ucd w fp c = Some g /\ height canvas = height g.
Proof.
unfold compose_result.
destruct (glyphs ucd w fp (c :: rest)) as [gs|] eqn:Hgs; [|done].
intros Hc. apply canvas_of_size in Hc as (g0 & gs' & -> & Hsz).
apply glyphs_lookup in Hgs as [_ Hk].
destruct (Hk 0 c eq_refl) as (g & [= ->] & Hg).
exists g. split; [by apply char_image_glyph|].
unfold height at 1. by rewrite Hsz.
Qed.

(** A text with a character that does not load does not load. *)
Lemma glyphs_elem_fail w fp text c e0 :
c ∈ text -> glyph ucd w fp c = Raise e0 ->
exists e, glyphs ucd w fp text = Raise e.
Proof.
intros Hin Hc. induction text as [|c0 rest IH]; [by apply elem_of_nil in Hin|].
simpl. destruct (glyph ucd w fp c0) as [g|e] eqn:Hg; [|eauto].
apply elem_of_cons in Hin as [->|Hin]; [congruence|].
destruct (IH Hin) as [e ->]. eauto.
Qed.
End Offsets.

Section Outcomes.
Variable ucd : unicode_db.
Variable DESKTOP_PATH : list N.

(** The outcome of loading one character is [glyph]. *)
Lemma load_char_outcome c fp w : snd (load_char ucd c fp w) = glyph ucd w fp c.
Proof. rewrite <- (logs_nil w) at 1. by rewrite load_char_run. Qed.


Lemma glyphs_returns_drawable w fp text gs :
  glyphs ucd w fp text = Return gs -> forallb (drawable ucd w fp) text = true.
Proof.
  revert gs. induction text as [|c rest IH]; intros gs H; [done|]. simpl in *.
  destruct (glyph ucd w fp c) as [g|] eqn:Hg; [|done].
  destruct (glyphs ucd w fp rest) as [gs'|] eqn:Hr; [|done].
  rewrite (IH gs' eq_refl), andb_true_r. apply glyph_drawable. eauto.
Qed.

(** [compose] returns a canvas exactly for the non-empty texts of drawable
    characters. *)
Lemma compose_result_returns w fp text :
  (exists canvas, compose_result ucd w fp text = Return canvas)
  <-> text <> [] /\ forallb (drawable ucd w fp) text = true.
Proof.
  unfold compose_result. split.
  - intros [canvas H].
    destruct (glyphs ucd w fp text) as [gs|] eqn:Hgs; [|done]. split.
    + apply canvas_of_size in H as (g0 & r & -> & _).
      apply glyphs_lookup in Hgs as [Hl _]. by destruct text.
    + by eapply glyphs_returns_drawable.
  - intros [Hne Hall]. destruct (glyphs_drawable ucd w fp text Hall) as [gs Hgs].
    rewrite Hgs. destruct gs as [|g0 rest].
    + apply glyphs_lookup in Hgs as [Hl _]. by destruct text.
    + apply canvas_of_ok.
Qed.

(** A text that does not load has a first character that does not load. *)
Lemma glyphs_first_failure w fp text e :
  glyphs ucd w fp text = Raise e ->
  exists pre c post,
    text = pre ++ c :: post
    /\ forallb (drawable ucd w fp) pre = true
    /\ glyph ucd w fp c = Raise e.
Proof.
  induction text as [|c rest IH]; [done|]. simpl.
  destruct (glyph ucd w fp c) as [g|e0] eqn:Hg.
  - destruct (glyphs ucd w fp rest) as [gs|e1] eqn:Hr; [done|].
    intros [= ->]. destruct (IH eq_refl) as (pre & c' & post & -> & Hpre & Hc').
    exists (c :: pre), c', post. split; [done|]. split; [|done].
    simpl. rewrite Hpre, andb_true_r. apply glyph_drawable. eauto.
  - intros [= ->]. exists [], c, rest. done.
Qed.

End Outcomes.

Section Claims.
Variable ucd : unicode_db.
Variable DESKTOP_PATH : list N.

(** C1 (as amended). For every non-empty text whose characters are each the
  space or a character with a glyph asset (a file at the resolved path that
  exists, can be read and decodes), and when the write of the output file
  runs into no fault, [generate_image_with_filename] succeeds with
  [(filename, None)] and the canvas it saved has as width the sum, in text
  order, of the advance widths: the width of the glyph image for a
  character other than the space, [SPACE_WIDTH] for the space. *)
Theorem render_width text filename fp w :
text <> [] ->
forallb (drawable ucd w fp) text = true ->
fault w (CallSave (os_path_join DESKTOP_PATH [filename])) = None ->
exists w' canvas,
  generate_image_with_filename ucd DESKTOP_PATH text filename fp w
  = (w', (Some filename, None))
  /\ files w' !! os_path_join DESKTOP_PATH [filename] = Some (ImageFile canvas)
  /\ width canvas = sum_list (map (advance_width ucd w fp) text).
Proof.
intros Hne Hall Hsave. rewrite generate_run. rewrite Hsave.
destruct (glyphs_drawable ucd w fp text Hall) as [gs Hgs].
unfold compose_result. rewrite Hgs.
destruct gs as [|g0 rest].
{ apply glyphs_lookup in Hgs as [Hl _]. by destruct text. }
destruct (canvas_of_ok g0 rest) as [canvas Hc]. rewrite Hc.
eexists _, canvas. split; [reflexivity|]. split.
- simpl. apply lookup_insert_eq.
- apply canvas_of_size in Hc as (g & r & Heq & Hsz).
  unfold width at 1. rewrite Hsz. cbn [fst].
  by rewrite (glyphs_widths ucd w fp text _ Hgs).
Qed.

(** C2. When a render of a non-empty text succeeds, the height of the canvas
  it saved is the height of the image obtained for the first character: 1
  if the text starts with a space, the height of the glyph asset of that
  character otherwise, whatever the characters after it. *)
Theorem canvas_height_first c rest filename fp w w' r :
generate_image_with_filename ucd DESKTOP_PATH (c :: rest) filename fp w
  = (w', (Some r, None)) ->
exists canvas,
  files w' !! os_path_join DESKTOP_PATH [filename] = Some (ImageFile canvas)
  /\ ((c = SPACE /\ height canvas = 1)
      \/ (c <> SPACE /\ exists g, glyph_asset ucd w fp c = Some g
                                  /\ height canvas = height g)).
Proof.
rewrite generate_run. unfold compose_result.
destruct (glyphs ucd w fp (c :: rest)) as [gs|e] eqn:Hgs.
2:{ destruct (handler_shape e) as [m ->]. intros H; inversion H. }
destruct (canvas_of gs) as [canvas|e] eqn:Hc.
2:{ destruct (handler_shape e) as [m ->]. intros H; inversion H. }
destruct (fault w _) as [e|].
{ destruct (handler_shape e) as [m ->]. intros H; inversion H. }
intros H; inversion H; subst. exists canvas. split.
{ simpl. apply lookup_insert_eq. }
apply canvas_of_size in Hc as (g0 & gs' & -> & Hsz).
apply glyphs_lookup in Hgs as [_ Hk].
destruct (Hk 0 c eq_refl) as (g & Hg0 & Hg). inversion Hg0; subst.
assert (height canvas = height g) as Hh
  by (unfold height at 1; rewrite Hsz; reflexivity).
destruct (c =? SPACE)%N eqn:Hsp.
- left. apply N.eqb_eq in Hsp. subst. split; [done|].
  rewrite glyph_space in Hg. inversion Hg; subst. exact Hh.
- right. split; [by apply N.eqb_neq|]. exists g. split; [|done].
  by apply glyph_asset_iff.
Qed.

(** C3 (as amended). For every text containing a character that is neither
    alphabetic, nor a digit, nor the space, nor in the special-character
    table, and with no file at its resolved path ([.png] in the symbols
    folder), the render fails with an error description, makes only reads
    and writes no file. The description is that of the error of the first
    character, in text order, that cannot be loaded; when every character
    before an occurrence of the unmapped character can be drawn, it is the
    glyph-not-found message naming that character. *)
Theorem missing_glyph_reported text c filename L Nm S w :
  c ∈ text ->
  unmapped ucd c = true ->
  files w !! os_path_join S [lit ".png"] = None ->
  exists cs m,
    Forall (fun call => is_read call = true) cs
    /\ generate_image_with_filename ucd DESKTOP_PATH text filename (L, Nm, S) w
       = (logs cs w, (None, Some m))
    /\ files (logs cs w) = files w
    /\ (forall pre post,
          text = pre ++ c :: post ->
          forallb (drawable ucd w (L, Nm, S)) pre = true ->
          m = lit "Image not found for character '" ++ [c] ++ lit "'")
    /\ (exists pre c' post e,
          text = pre ++ c' :: post
          /\ forallb (drawable ucd w (L, Nm, S)) pre = true
          /\ drawable ucd w (L, Nm, S) c' = false
          /\ snd (load_char ucd c' (L, Nm, S) w) = Raise e
          /\ handler e = (None, Some m)).
Proof.
  intros Hin Hun Hfile.
  destruct (unmapped_path ucd c L Nm S Hun) as [Hsp Hp].
  assert (glyph ucd w (L, Nm, S) c = Raise (image_not_found c)) as Hc.
  { unfold glyph. rewrite Hsp, Hp, Hfile. reflexivity. }
  destruct (glyphs_elem_fail ucd w _ text c _ Hin Hc) as [e He].
  destruct (handler_shape e) as [m Hm].
  exists (load_calls ucd w (L, Nm, S) text), m.
  split; [|split; [|split; [done|split]]].
  - eapply Forall_impl; [apply load_calls_reads|].
    intros call. apply asset_read_is_read.
  - rewrite generate_run. unfold compose_result. by rewrite He, Hm.
  - intros pre post -> Hpre.
    destruct (glyphs_drawable ucd w _ pre Hpre) as [gs Hgs].
    rewrite (glyphs_app_fail ucd w _ pre c post _ gs Hgs Hc) in He.
    inversion He; subst e.
    cbv [handler image_not_found kind message] in Hm. by inversion Hm.
  - destruct (glyphs_first_failure ucd w _ text e He) as (pre & c' & post & Ht & Hpre & Hc').
    exists pre, c', post, e. split; [done|]. split; [done|]. split.
    + destruct (drawable ucd w (L, Nm, S) c') eqn:Hd; [|done].
      apply glyph_drawable in Hd as [g Hg]. congruence.
    + split; [|done]. by rewrite load_char_outcome.
Qed.

(** C4 (as amended). In a render that succeeds, every occurrence of a
  character other than the space opens its glyph file once more: the
  number of [Image.open] calls on a path grows by the number of occurrences
  in the text of the characters that resolve to it (there is no cache), and
  the image of every character is on the canvas at the offset of each of
  its occurrences. *)
Theorem reads_per_occurrence text filename fp w w' r :
generate_image_with_filename ucd DESKTOP_PATH text filename fp w
  = (w', (Some r, None)) ->
(forall p, count_opens p (trace w')
           = count_opens p (trace w)
             + length (List.filter (resolves_to ucd fp p) text))
/\ exists canvas,
     files w' !! os_path_join DESKTOP_PATH [filename] = Some (ImageFile canvas)
     /\ forall k c, text !! k = Some c ->
          exists g, char_image ucd w fp c = Some g
            /\ forall i y, i < width g ->
                 getpixel canvas (offset ucd w fp text k + i) y
                 = painted g i y.
Proof.
rewrite generate_run.
destruct (compose_result ucd w fp text) as [canvas|e] eqn:Hc.
2:{ destruct (handler_shape e) as [m ->]. intros H; inversion H. }
destruct (fault w _) as [e|].
{ destruct (handler_shape e) as [m ->]. intros H; inversion H. }
intros H; inversion H; subst. split.
- intros p. unfold saved. cbn [trace].
  rewrite count_opens_save, count_opens_app, count_opens_rev.
  unfold compose_result in Hc.
  destruct (glyphs ucd w fp text) as [gs|] eqn:Hgs; [|done].
  rewrite (load_calls_opens ucd w fp p text gs Hgs). lia.
- exists canvas. split; [simpl; apply lookup_insert_eq|].
  intros k c Hk. destruct (compose_pixels ucd w fp text canvas Hc) as [_ Hp].
  destruct (Hp k c Hk) as (g & Hg & _ & Hpx). eauto.
Qed.

(** C5 (as amended). [generate_filename] applied to "Hello World!" yields
  [Hello-], the timestamp at second precision and [.png]: the token
  [World!] is not alphanumeric and is dropped whole. For every input the
  length of the result is at most the maximum filename length (255). *)
Theorem filename_hello_world now :
generate_filename ucd now (lit "Hello World!")
= lit "Hello-" ++ strftime now ++ lit ".png"
/\ forall text, length (generate_filename ucd now text) <= MAX_FILENAME_LENGTH.
Proof.
split.
- reflexivity.
- intros text. unfold generate_filename, slice_to. rewrite length_take. lia.
Qed.


(** C7. For every input text that is empty or made of whitespace only (and a
  font selection that is an integer), the callback of the user interface
  shows the empty-input error and returns with the world untouched: no file
  is looked up, read or written, whatever the renderer is. *)
Theorem empty_input_rejected py_int generate_image g w font :
py_int (font_var g) = Return font ->
forallb (isspace ucd) (text_entry g) = true ->
exists shown,
  generate_and_display_image ucd py_int generate_image g w
  = (w, shown ++ [ShowError (lit "Error") EMPTY_INPUT_MESSAGE], None).
Proof.
intros Hfont Hws. unfold generate_and_display_image.
rewrite Hfont, (strip_spaces ucd _ Hws). eauto.
Qed.

(** C8 (as amended). Besides the reads of the glyph files of the characters
  of the text ([os.path.isfile] and [Image.open]), a render has one more
  effect: when the canvas is complete it writes it itself, at
  [DESKTOP_PATH/filename]. A render that succeeds has changed that one
  file; a render that fails has changed no file. *)
Theorem render_effects text filename fp w :
exists cs, Forall (asset_read ucd fp text) cs /\
  ((exists canvas,
      generate_image_with_filename ucd DESKTOP_PATH text filename fp w
      = (saved cs (os_path_join DESKTOP_PATH [filename]) canvas w,
         (Some filename, None)))
   \/ (exists m,
      generate_image_with_filename ucd DESKTOP_PATH text filename fp w
      = (logs cs w, (None, Some m)))
   \/ (exists m,
      generate_image_with_filename ucd DESKTOP_PATH text filename fp w
      = (log (CallSave (os_path_join DESKTOP_PATH [filename])) (logs cs w),
         (None, Some m)))).
Proof.
exists (load_calls ucd w fp text). split; [apply load_calls_reads|].
rewrite generate_run.
destruct (compose_result ucd w fp text) as [img|e].
- destruct (fault w _) as [e|]; [|left; eauto].
  right; right. destruct (handler_shape e) as [m ->]. eauto.
- right; left. destruct (handler_shape e) as [m ->]. eauto.
Qed.

(** C9 (as amended). On a canvas that [compose] returns, the image of every
  character lies at the horizontal offset that is the sum of the advance
  widths of the characters before it, the columns of two characters never
  overlap, and the canvas is as wide as all of them. Composing "ab" and
  "ba" puts the two images at swapped offsets; the two canvases differ
  whenever the two glyphs differ at a position where both are opaque
  (without that, two distinct glyphs can give the same canvas). *)
Theorem glyph_placement text fp w w' canvas :
compose ucd text fp w = (w', Return canvas) ->
width canvas = offset ucd w fp text (length text)
/\ (forall k c, text !! k = Some c ->
      (forall j cj, j < k -> text !! j = Some cj ->
         offset ucd w fp text j + advance_width ucd w fp cj
         <= offset ucd w fp text k)
      /\ exists g, char_image ucd w fp c = Some g
           /\ width g = advance_width ucd w fp c
           /\ forall i y, i < width g ->
                getpixel canvas (offset ucd w fp text k + i) y
                = painted g i y)
/\ (forall a b w'' canvas' ga gb,
      text = [a; b] ->
      compose ucd [b; a] fp w = (w'', Return canvas') ->
      char_image ucd w fp a = Some ga ->
      char_image ucd w fp b = Some gb ->
      (forall i y, i < width ga ->
         getpixel canvas i y = painted ga i y
         /\ getpixel canvas' (width gb + i) y = painted ga i y)
      /\ (forall i y, i < width gb ->
            getpixel canvas (width ga + i) y = painted gb i y
            /\ getpixel canvas' i y = painted gb i y)
      /\ (forall i y,
            i < width ga -> i < width gb ->
            y < height ga -> y < height gb ->
            valid_pixel (getpixel ga i y) = true ->
            valid_pixel (getpixel gb i y) = true ->
            opaque (getpixel ga i y) = true ->
            opaque (getpixel gb i y) = true ->
            getpixel ga i y <> getpixel gb i y ->
            ~ same_image canvas canvas')).
Proof.
intros Hrun. apply compose_returns in Hrun.
destruct (compose_pixels ucd w fp text canvas Hrun) as [Hw Hpx].
split; [done|]. split.
{ intros k c Hk. split; [|by apply Hpx].
  intros j cj Hjk Hj. by apply offset_disjoint. }
intros a b w'' canvas' ga gb -> Hrun' Ha Hb.
apply compose_returns in Hrun'.
destruct (compose_pixels ucd w fp [b; a] canvas' Hrun') as [Hw' Hpx'].
destruct (Hpx 0 a eq_refl) as (ga0 & Ha0 & Hwa & Pa0).
destruct (Hpx 1 b eq_refl) as (gb1 & Hb1 & Hwb & Pb1).
destruct (Hpx' 0 b eq_refl) as (gb0 & Hb0 & _ & Pb0).
destruct (Hpx' 1 a eq_refl) as (ga1 & Ha1 & _ & Pa1).
assert (ga0 = ga) as -> by congruence. assert (ga1 = ga) as -> by congruence.
assert (gb0 = gb) as -> by congruence. assert (gb1 = gb) as -> by congruence.
assert (offset ucd w fp [a; b] 0 = 0) as O0 by reflexivity.
assert (offset ucd w fp [b; a] 0 = 0) as O0' by reflexivity.
assert (offset ucd w fp [a; b] 1 = width ga) as O1
  by (unfold offset; simpl; lia).
assert (offset ucd w fp [b; a] 1 = width gb) as O1'
  by (unfold offset; simpl; lia).
rewrite O0 in Pa0. rewrite O1 in Pb1. rewrite O0' in Pb0. rewrite O1' in Pa1.
assert (forall i y, i < width ga ->
          getpixel canvas i y = painted ga i y
          /\ getpixel canvas' (width gb + i) y = painted ga i y) as Sa.
{ intros i y Hi. split; [apply (Pa0 i y Hi) | apply (Pa1 i y Hi)]. }
assert (forall i y, i < width gb ->
          getpixel canvas (width ga + i) y = painted gb i y
          /\ getpixel canvas' i y = painted gb i y) as Sb.
{ intros i y Hi. split; [apply (Pb1 i y Hi) | apply (Pb0 i y Hi)]. }
split; [exact Sa|]. split; [exact Sb|].
intros i y Hia Hib Hya Hyb Va Vb Oa Ob Hne [Hsz Hsame].
apply Hne.
rewrite <- (on_transparent_opaque _ Va Oa), <- (on_transparent_opaque _ Vb Ob).
assert (painted ga i y = on_transparent (getpixel ga i y)) as <-.
{ unfold painted. by rewrite (proj2 (Nat.ltb_lt _ _) Hya). }
assert (painted gb i y = on_transparent (getpixel gb i y)) as <-.
{ unfold painted. by rewrite (proj2 (Nat.ltb_lt _ _) Hyb). }
rewrite <- (proj1 (Sa i y Hia)), <- (proj2 (Sb i y Hib)).
apply Hsame.
- rewrite Hw. unfold offset. simpl. lia.
- destruct (compose_height ucd a [b] fp w canvas Hrun) as (g & Hg & ->).
  assert (g = ga) as -> by congruence. exact Hya.
Qed.

(** C10. For every alphabetic character, upper-case or without case, for
  which [islower] is false, the glyph locator resolves the path
  [Upper-Case/<char>.png] under the letters folder; the folder is
  [Lower-Case] exactly when [islower] is true. The locator returns that
  path when the file exists and raises the glyph-not-found error naming the
  character otherwise. *)
Theorem letter_folder c L Nm S w :
isalpha ucd c = true ->
get_character_image_path ucd c (L, Nm, S) w
= (log (CallIsFile (os_path_join L [case_folder ucd c; c :: lit ".png"])) w,
   match files w !! os_path_join L [case_folder ucd c; c :: lit ".png"] with
   | Some _ => Return (Some (os_path_join L [case_folder ucd c; c :: lit ".png"]))
   | None => Raise (image_not_found c)
   end)
/\ (islower ucd c = false -> case_folder ucd c = lit "Upper-Case")
/\ (case_folder ucd c = lit "Lower-Case" <-> islower ucd c = true).
Proof.
intros Ha. split; [|split].
- unfold get_character_image_path, char_img_path. rewrite Ha.
  unfold bind, os_path_isfile, PNG.
  by destruct (files w !! _).
- unfold case_folder. by intros ->.
- unfold case_folder. destruct (islower ucd c); split; intros H; done.
Qed.
End Claims.

(* ===================================================================== *)
(** * The properties on the sample desk *)
(* ===================================================================== *)

Lemma pair_of_snd {A B} (x : A * B) (b : B) : snd x = b -> x = (fst x, b).
Proof. destruct x. simpl. by intros ->. Qed.

(** "A B" is drawn 3 + 30 + 2 columns wide. *)
Lemma render_width_witness :
  exists w' canvas,
    render (lit "A B") = (w', (Some OUT, None))
    /\ files w' !! DESK_OUT = Some (ImageFile canvas)
    /\ width canvas = 35.
Proof.
  destruct (render_width latin1_kana HOME_DESKTOP (lit "A B") OUT blue_font desk)
    as (w' & canvas & Hrun & Hfile & Hwidth).
  - discriminate.
  - vm_compute. reflexivity.
  - reflexivity.
  - exists w', canvas. split; [exact Hrun|]. split; [exact Hfile|].
    rewrite Hwidth. vm_compute. reflexivity.
Defined.

(** The empty text is made of drawable characters only, and is not drawn. *)
Lemma empty_text_fails :
  forallb (drawable latin1_kana desk blue_font) [] = true
  /\ render []
     = (desk,
        (None,
         Some (lit "An unexpected error occurred: '<' not supported between instances of 'NoneType' and 'int'."))).
Proof. split; reflexivity. Qed.

(** " A" is one row high, though [A] has four rows. *)
Lemma canvas_height_first_witness :
  exists canvas,
    files (fst (render (lit " A"))) !! DESK_OUT = Some (ImageFile canvas)
    /\ height canvas = 1.
Proof.
  assert (snd (render (lit " A")) = (Some OUT, None)) as Hrun
    by (vm_compute; reflexivity).
  apply pair_of_snd in Hrun.
  destruct (canvas_height_first latin1_kana HOME_DESKTOP SPACE (lit "A") OUT
              blue_font desk _ OUT Hrun)
    as (canvas & Hfile & [[_ Hh] | [Hne _]]).
  - exists canvas. split; [exact Hfile | exact Hh].
  - exfalso. apply Hne. reflexivity.
Defined.

(** "A€": the euro sign has no glyph and is named. *)
Lemma missing_glyph_reported_witness :
  exists cs,
    render [65%N; EURO]
    = (logs cs desk,
       (None, Some (lit "Image not found for character '" ++ [EURO] ++ lit "'")))
    /\ files (logs cs desk) = files desk.
Proof.
  destruct (missing_glyph_reported latin1_kana HOME_DESKTOP [65%N; EURO] EURO OUT
              (fst (fst blue_font)) (snd (fst blue_font)) (snd blue_font) desk)
    as (cs & m & _ & Hrun & Hfiles & Hm & _).
  - apply elem_of_cons. right. apply elem_of_cons. by left.
  - vm_compute. reflexivity.
  - vm_compute. reflexivity.
  - exists cs. split; [|exact Hfiles].
    rewrite <- (Hm [65%N] [] eq_refl); [exact Hrun|].
    vm_compute. reflexivity.
Defined.

(** "b€": the euro sign has no glyph, yet the letter before it is named. *)
Lemma earlier_failure_is_named :
  EURO ∈ [98%N; EURO]
  /\ unmapped latin1_kana EURO = true
  /\ files desk !! os_path_join (snd blue_font) [lit ".png"] = None
  /\ snd (render [98%N; EURO])
     = (None, Some (lit "Image not found for character 'b'"))
  /\ lit "Image not found for character 'b'"
     <> lit "Image not found for character '" ++ [EURO] ++ lit "'".
Proof.
  split; [apply elem_of_cons; right; apply elem_of_cons; by left|].
  split; [vm_compute; reflexivity|]. split; [vm_compute; reflexivity|].
  split; [vm_compute; reflexivity|]. vm_compute. discriminate.
Qed.

(** "AA" opens the file of [A] twice. *)
Lemma reads_per_occurrence_witness :
  count_opens A_PNG (trace (fst (render (lit "AA")))) = 2.
Proof.
  assert (snd (render (lit "AA")) = (Some OUT, None)) as Hrun
    by (vm_compute; reflexivity).
  apply pair_of_snd in Hrun.
  destruct (reads_per_occurrence latin1_kana HOME_DESKTOP (lit "AA") OUT
              blue_font desk _ OUT Hrun) as [Hopens _].
  rewrite (Hopens A_PNG). vm_compute. reflexivity.
Defined.

Lemma repeated_glyph_opened_twice :
  snd (render (lit "AA")) = (Some OUT, None)
  /\ count_opens A_PNG (trace (fst (render (lit "AA")))) = 2
  /\ count_opens A_PNG (trace desk) = 0.
Proof. repeat split; vm_compute; reflexivity. Qed.

(** The second token of "Hello World!" is lost. *)
Lemma hello_world_keeps_hello_only :
  generate_filename latin1_kana noon (lit "Hello World!")
  = lit "Hello-20240131-120005.png"
  /\ generate_filename latin1_kana noon (lit "Hello World!")
     <> lit "Hello-World-20240131-120005.png".
Proof. split; [vm_compute; reflexivity | vm_compute; discriminate]. Qed.

(** Two spaces in the text field: the callback shows the error and the
    renderer behind it is not called, its mark is not in the log. *)
Lemma empty_input_rejected_witness :
  exists shown,
    generate_and_display_image latin1_kana int_1_to_5 marking_renderer
      (Widgets (lit "  ") (lit "1") (lit "Blue")) desk
    = (desk, shown ++ [ShowError (lit "Error") EMPTY_INPUT_MESSAGE], None).
Proof.
  apply (empty_input_rejected latin1_kana int_1_to_5 marking_renderer
           (Widgets (lit "  ") (lit "1") (lit "Blue")) desk 1%Z).
  - reflexivity.
  - reflexivity.
Defined.

(** The guard is in the user interface only: handed two spaces, the renderer
    itself saves a canvas of 60 x 1. *)
Lemma renderer_draws_whitespace :
  snd (render (lit "  ")) = (Some OUT, None)
  /\ (size <$> (match files (fst (render (lit "  "))) !! DESK_OUT with
                | Some (ImageFile im) => Some im
                | _ => None
                end)) = Some (60, 1).
Proof. split; vm_compute; reflexivity. Qed.

(** A render of "A" writes the output file itself. *)
Lemma render_saves_canvas :
  files desk !! DESK_OUT = None
  /\ snd (render (lit "A")) = (Some OUT, None)
  /\ (exists canvas, files (fst (render (lit "A"))) !! DESK_OUT = Some (ImageFile canvas))
  /\ head (trace (fst (render (lit "A")))) = Some (CallSave DESK_OUT).
Proof.
  split; [vm_compute; reflexivity|]. split; [vm_compute; reflexivity|].
  split; [|vm_compute; reflexivity].
  eexists. vm_compute. reflexivity.
Qed.

(** "AB": [B] starts in column 3, after the three columns of [A]. *)
Lemma glyph_placement_witness :
  exists canvas,
    snd (compose latin1_kana (lit "AB") blue_font desk) = Return canvas
    /\ width canvas = 5
    /\ getpixel canvas 3 0 = GREEN.
Proof.
  destruct (snd (compose latin1_kana (lit "AB") blue_font desk))
    as [canvas|e] eqn:Hrun.
  - apply pair_of_snd in Hrun.
    destruct (glyph_placement latin1_kana (lit "AB") blue_font desk _ canvas Hrun)
      as (Hwidth & Hpx & _).
    exists canvas. split; [reflexivity|]. split.
    + rewrite Hwidth. vm_compute. reflexivity.
    + destruct (Hpx 1 66%N eq_refl) as (_ & g & Hg & _ & Hp).
      assert (char_image latin1_kana desk blue_font 66 = Some (solid 2 4 GREEN))
        as HB by (vm_compute; reflexivity).
      rewrite HB in Hg. inversion Hg; subst g.
      assert (offset latin1_kana desk blue_font (lit "AB") 1 + 0 = 3) as Hoff
        by (vm_compute; reflexivity).
      rewrite <- Hoff. rewrite Hp; [|vm_compute; lia].
      vm_compute. reflexivity.
  - exfalso.
    assert (snd (compose latin1_kana (lit "AB") blue_font desk) <> Raise e) as Hne
      by (vm_compute; discriminate).
    exact (Hne Hrun).
Defined.

(** [I] and [M] are distinct glyphs, one and two columns of red: "IM" and
    "MI" give the same canvas. *)
Lemma solid_glyphs_commute :
  exists gi gm cim cmi,
    char_image latin1_kana desk blue_font 73 = Some gi
    /\ char_image latin1_kana desk blue_font 77 = Some gm
    /\ size gi <> size gm
    /\ snd (compose latin1_kana [73; 77]%N blue_font desk) = Return cim
    /\ snd (compose latin1_kana [77; 73]%N blue_font desk) = Return cmi
    /\ same_image cim cmi.
Proof.
  exists (solid 1 4 RED), (solid 2 4 RED),
    (paste_loop (layout [solid 1 4 RED; solid 2 4 RED])
       (Image_new (3, 4) TRANSPARENT) 0),
    (paste_loop (layout [solid 2 4 RED; solid 1 4 RED])
       (Image_new (3, 4) TRANSPARENT) 0).
  split; [vm_compute; reflexivity|]. split; [vm_compute; reflexivity|].
  split; [vm_compute; discriminate|].
  split; [vm_compute; reflexivity|]. split; [vm_compute; reflexivity|].
  split; [reflexivity|].
  intros x y Hx Hy. cbn in Hx, Hy.
  destruct x as [|[|[|x]]]; [| | |lia];
    (destruct y as [|[|[|[|y]]]]; [| | | |lia]); vm_compute; reflexivity.
Qed.

(** The hiragana [a] is alphabetic and has no case: its glyph is looked up
    in [Upper-Case]. *)
Lemma letter_folder_witness :
  fst (get_character_image_path latin1_kana HIRAGANA_A blue_font desk)
  = log (CallIsFile
           (lit "Assets/FONTS/Font-1/Font-1-Blue/Letters/Upper-Case/"
            ++ [HIRAGANA_A] ++ lit ".png")) desk
  /\ case_folder latin1_kana HIRAGANA_A = lit "Upper-Case".
Proof.
  destruct (letter_folder latin1_kana HIRAGANA_A
              (fst (fst blue_font)) (snd (fst blue_font)) (snd blue_font) desk)
    as (Hrun & Hupper & _).
  - reflexivity.
  - split; [|apply Hupper; reflexivity].
    change (fst (fst blue_font), snd (fst blue_font), snd blue_font)
      with blue_font in Hrun.
    rewrite Hrun. reflexivity.
Defined.

(* ===================================================================== *)
(** * Further properties of the renderer and of the user interface *)
(* ===================================================================== *)

Section FilenameFacts.
Variable ucd : unicode_db.

Lemma generate_filename_unfold now text :
  generate_filename ucd now text
  = take MAX_FILENAME_LENGTH
      (sanitized_input ucd text ++ lit "-" ++ strftime now ++ lit ".png").
Proof. reflexivity. Qed.

Lemma digit_alnum n : isalnum ucd (digit n) = true.
Proof.
  unfold digit.
  assert (n mod 10 < 10)%N as Hlt by (apply N.mod_lt; lia).
  assert (forallb (fun d => isalnum ucd (48 + d)%N) (map N.of_nat (seq 0 10)) = true)
    as Hall by reflexivity.
  rewrite forallb_forall in Hall. apply Hall, in_map_iff.
  remember (n mod 10)%N as d. clear Heqd.
  exists (N.to_nat d). split; [apply N2Nat.id|]. apply in_seq. lia.
Qed.

Lemma strftime_chars now : Forall (fun c => filename_char ucd c = true) (strftime now).
Proof.
  unfold strftime, four_digits, two_digits. simpl.
  repeat (apply Forall_cons; split;
          [first [ reflexivity
                 | unfold filename_char; rewrite digit_alnum; reflexivity ]|]).
  apply Forall_nil_2.
Qed.

Lemma str_join_chars (P : N -> Prop) sep parts :
  Forall P sep -> Forall (Forall P) parts -> Forall P (str_join sep parts).
Proof.
  intros Hsep. induction 1 as [|p rest Hp Hrest IH]; simpl; [constructor|].
  destruct rest as [|q rest]; [done|].
  apply Forall_app; split; [done|]. apply Forall_app; split; [done|]. exact IH.
Qed.

Lemma sanitized_chars text :
  Forall (fun c => isalnum ucd c = true \/ c = 45%N) (sanitized_input ucd text).
Proof.
  unfold sanitized_input. apply str_join_chars.
  - change (lit "-") with [45%N]. constructor; [by right|constructor].
  - apply Forall_forall. intros t Ht. apply list_elem_of_In, filter_In in Ht as [_ Ht].
    apply Forall_forall. intros c Hc. left.
    destruct t as [|c0 t]; [done|]. unfold str_isalnum in Ht.
    rewrite forallb_forall in Ht. apply Ht. by apply list_elem_of_In.
Qed.

Lemma generate_filename_charset now text :
  Forall (fun c => filename_char ucd c = true) (generate_filename ucd now text).
Proof.
  rewrite generate_filename_unfold. apply Forall_take.
  apply Forall_app; split.
  { eapply Forall_impl; [apply sanitized_chars|]. intros c [Hc | ->].
    - unfold filename_char. by rewrite Hc.
    - unfold filename_char. by rewrite orb_true_r. }
  apply Forall_app; split; [by repeat constructor|].
  apply Forall_app; split; [apply strftime_chars|].
  repeat constructor.
Qed.

(** X1. Whatever the input text and the time, a generated file name is made
    of alphanumeric characters, hyphens and dots only; in particular it holds
    no path separator. *)
Theorem generate_filename_chars now text :
  Forall (fun c => filename_char ucd c = true) (generate_filename ucd now text)
  /\ SEP ∉ generate_filename ucd now text.
Proof.
  pose proof (generate_filename_charset now text) as H.
  split; [exact H|]. intros Hin.
  rewrite Forall_forall in H. by specialize (H SEP Hin).
Qed.
End FilenameFacts.

Section FilenameFacts2.
Variable ucd : unicode_db.

Lemma strftime_length now : length (strftime now) = 15.
Proof. reflexivity. Qed.

Lemma generate_filename_head now text :
  startswith_sep (generate_filename ucd now text) = false.
Proof.
  pose proof (generate_filename_charset ucd now text) as H.
  destruct (generate_filename ucd now text) as [|c fn]; [done|].
  simpl. apply Forall_cons in H as [Hc _].
  destruct (c =? SEP)%N eqn:E; [|done].
  apply N.eqb_eq in E. subst c. discriminate Hc.
Qed.

(** X2. The output path of a generated file name is the desktop folder
    followed by the name, with one separator between them unless the folder
    is empty or already ends with one: [os.path.join] never drops the
    folder. *)
Theorem output_path_under_desktop desktop now text :
  os_path_join desktop [generate_filename ucd now text]
    = desktop ++ generate_filename ucd now text
  \/ os_path_join desktop [generate_filename ucd now text]
    = desktop ++ SEP :: generate_filename ucd now text.
Proof.
  unfold os_path_join. simpl. unfold join_step.
  rewrite generate_filename_head.
  destruct (_ || _); [by left | by right].
Qed.

(** X3. When the sanitized text has at most 235 characters nothing is cut:
    the file name is the sanitized text, a hyphen, the 15 characters of the
    timestamp and [.png]. *)
Theorem generate_filename_short now text :
  length (sanitized_input ucd text) <= 235 ->
  generate_filename ucd now text
  = sanitized_input ucd text ++ lit "-" ++ strftime now ++ lit ".png".
Proof.
  intros H. rewrite generate_filename_unfold. apply take_ge.
  rewrite !length_app, strftime_length. simpl. unfold MAX_FILENAME_LENGTH. lia.
Qed.

(** X4. When the sanitized text has 255 characters or more, the file name
    is its first 255 characters: the timestamp and the extension are cut
    off. *)
Theorem generate_filename_long now text :
  255 <= length (sanitized_input ucd text) ->
  generate_filename ucd now text = take 255 (sanitized_input ucd text).
Proof.
  intros H. rewrite generate_filename_unfold. by apply take_app_le.
Qed.

(** X5. When no token of the text is alphanumeric (the text is blank, or
    every token holds a punctuation mark), the file name is a hyphen, the
    timestamp and [.png], whatever the text. *)
Theorem generate_filename_no_token now text :
  forallb (fun t => negb (str_isalnum ucd t)) (split ucd text) = true ->
  generate_filename ucd now text = lit "-" ++ strftime now ++ lit ".png".
Proof.
  intros H.
  assert (List.filter (str_isalnum ucd) (split ucd text) = []) as Hnil.
  { induction (split ucd text) as [|t ts IH]; [done|]. simpl in *.
    apply andb_prop in H as [Ht Hts]. apply negb_true_iff in Ht. rewrite Ht. auto. }
  rewrite generate_filename_unfold. unfold sanitized_input. rewrite Hnil.
  apply take_ge. rewrite !length_app, strftime_length. simpl.
  unfold MAX_FILENAME_LENGTH. lia.
Qed.
End FilenameFacts2.

Section RenderMore.
Variable ucd : unicode_db.
Variable DESKTOP_PATH : list N.

(** X6. A render succeeds exactly when the text is not empty, every
    character is the space or has a glyph asset that loads, and the write of
    the output file runs into no fault. *)
Theorem render_succeeds_iff text filename fp w :
  snd (generate_image_with_filename ucd DESKTOP_PATH text filename fp w)
    = (Some filename, None)
  <-> text <> []
      /\ forallb (drawable ucd w fp) text = true
      /\ fault w (CallSave (os_path_join DESKTOP_PATH [filename])) = None.
Proof.
  rewrite generate_run. split.
  - destruct (compose_result ucd w fp text) as [canvas|e] eqn:Hc.
    2:{ destruct (handler_shape e) as [m ->]. discriminate. }
    destruct (fault w _) as [e|].
    { destruct (handler_shape e) as [m ->]. discriminate. }
    intros _. destruct (proj1 (compose_result_returns ucd w fp text)) as [H1 H2]; eauto.
  - intros (Hne & Hall & ->).
    destruct (proj2 (compose_result_returns ucd w fp text)) as [canvas ->]; done.
Qed.

(** The first character that does not load decides the outcome. *)
Lemma render_first_failure pre c post filename fp w e :
  forallb (drawable ucd w fp) pre = true ->
  glyph ucd w fp c = Raise e ->
  generate_image_with_filename ucd DESKTOP_PATH (pre ++ c :: post) filename fp w
  = (logs (load_calls ucd w fp (pre ++ c :: post)) w, handler e).
Proof.
  intros Hpre Hc. rewrite generate_run. unfold compose_result.
  destruct (glyphs_drawable ucd w fp pre Hpre) as [gs Hgs].
  by rewrite (glyphs_app_fail ucd w fp pre c post e gs Hgs Hc).
Qed.

(** X7. When the first character that does not load has a glyph file that
    [Image.open] does not identify as an image ([UnidentifiedImageError]),
    the render fails with "Error: Unsupported image format", after reads
    only: no file is written. *)
Theorem undecodable_asset_reported pre c post filename fp w p :
  forallb (drawable ucd w fp) pre = true ->
  c <> SPACE ->
  char_img_path ucd c fp = Some p ->
  files w !! p = Some OtherFile ->
  fault w (CallOpen p) = None ->
  exists cs,
    Forall (asset_read ucd fp (pre ++ c :: post)) cs
    /\ generate_image_with_filename ucd DESKTOP_PATH (pre ++ c :: post) filename fp w
       = (logs cs w, (None, Some (lit "Error: Unsupported image format"))).
Proof.
  intros Hpre Hsp Hp Hfile Hfault.
  exists (load_calls ucd w fp (pre ++ c :: post)). split; [apply load_calls_reads|].
  rewrite (render_first_failure pre c post filename fp w (cannot_identify p) Hpre);
    [reflexivity|].
  unfold glyph. apply N.eqb_neq in Hsp. by rewrite Hsp, Hp, Hfile, Hfault.
Qed.

(** X8. When the first character that does not load is any character other
    than the space (a letter, a digit, a special character) with no file at
    its resolved path, the render fails with the message naming that
    character, after reads only. *)
Theorem missing_asset_reported pre c post filename fp w p :
  forallb (drawable ucd w fp) pre = true ->
  c <> SPACE ->
  char_img_path ucd c fp = Some p ->
  files w !! p = None ->
  exists cs,
    Forall (asset_read ucd fp (pre ++ c :: post)) cs
    /\ generate_image_with_filename ucd DESKTOP_PATH (pre ++ c :: post) filename fp w
       = (logs cs w,
          (None, Some (lit "Image not found for character '" ++ [c] ++ lit "'"))).
Proof.
  intros Hpre Hsp Hp Hfile.
  exists (load_calls ucd w fp (pre ++ c :: post)). split; [apply load_calls_reads|].
  rewrite (render_first_failure pre c post filename fp w (image_not_found c) Hpre);
    [reflexivity|].
  unfold glyph. apply N.eqb_neq in Hsp. by rewrite Hsp, Hp, Hfile.
Qed.

(** X9. When every character loads but the write of the output file fails,
    the failure is reported through the handler of its class and every file
    is as it was before the render. *)
Theorem failed_save_reported text filename fp w e :
  text <> [] ->
  forallb (drawable ucd w fp) text = true ->
  fault w (CallSave (os_path_join DESKTOP_PATH [filename])) = Some e ->
  exists cs,
    Forall (asset_read ucd fp text) cs
    /\ generate_image_with_filename ucd DESKTOP_PATH text filename fp w
       = (log (CallSave (os_path_join DESKTOP_PATH [filename])) (logs cs w),
          handler e)
    /\ files (log (CallSave (os_path_join DESKTOP_PATH [filename])) (logs cs w))
       = files w.
Proof.
  intros Hne Hall Hsave.
  exists (load_calls ucd w fp text). split; [apply load_calls_reads|].
  split; [|reflexivity]. rewrite generate_run.
  destruct (proj2 (compose_result_returns ucd w fp text)) as [canvas ->]; [done|].
  by rewrite Hsave.
Qed.

Lemma load_calls_open_exists w fp text p :
  CallOpen p ∈ load_calls ucd w fp text -> is_Some (files w !! p).
Proof.
  induction text as [|c rest IH]; simpl; [by intros ?%elem_of_nil|].
  intros [H|H]%elem_of_app.
  - unfold char_calls in H. destruct (c =? SPACE)%N; [by apply elem_of_nil in H|].
    destruct (char_img_path ucd c fp) as [q|]; [|by apply elem_of_nil in H].
    destruct (files w !! q) as [f|] eqn:Hq.
    + apply elem_of_cons in H as [H|H]; [done|].
      apply list_elem_of_singleton in H. inversion H; subst. by rewrite Hq.
    + apply list_elem_of_singleton in H. done.
  - destruct (glyph ucd w fp c); [auto|by apply elem_of_nil in H].
Qed.

(** X23. When the first character that does not load has a glyph file that
    exists but whose read or decoding raises (a truncated image, a file that
    may not be read), the render fails with the description that the
    [except] clause of that exception builds, after reads only. *)
Theorem read_fault_reported pre c post filename fp w p f e :
  forallb (drawable ucd w fp) pre = true ->
  c <> SPACE ->
  char_img_path ucd c fp = Some p ->
  files w !! p = Some f ->
  fault w (CallOpen p) = Some e ->
  exists cs,
    Forall (asset_read ucd fp (pre ++ c :: post)) cs
    /\ generate_image_with_filename ucd DESKTOP_PATH (pre ++ c :: post) filename fp w
       = (logs cs w, handler e).
Proof.
  intros Hpre Hsp Hp Hfile Hfault.
  exists (load_calls ucd w fp (pre ++ c :: post)). split; [apply load_calls_reads|].
  rewrite (render_first_failure pre c post filename fp w e Hpre); [reflexivity|].
  unfold glyph. apply N.eqb_neq in Hsp. by rewrite Hsp, Hp, Hfile, Hfault.
Qed.

(** X10. [Image.open] is only called on a path for which [os.path.isfile]
    has just answered yes: every path opened during a render is a file of
    the world the render started in. *)
Theorem opens_only_existing_files text filename fp w p :
  CallOpen p ∈ trace (fst (generate_image_with_filename ucd DESKTOP_PATH text
                             filename fp w)) ->
  CallOpen p ∈ trace w \/ is_Some (files w !! p).
Proof.
  rewrite generate_run.
  assert (forall cs, CallOpen p ∈ rev cs ++ trace w ->
            CallOpen p ∈ cs \/ CallOpen p ∈ trace w) as Hsplit.
  { intros cs [H|H]%elem_of_app; [left|by right].
    by apply list_elem_of_In, in_rev, list_elem_of_In in H. }
  intros H.
  assert (CallOpen p ∈ rev (load_calls ucd w fp text) ++ trace w) as H'.
  { destruct (compose_result ucd w fp text).
    - destruct (fault w _); simpl in H.
      + by apply elem_of_cons in H as [?|?].
      + by apply elem_of_cons in H as [?|?].
    - exact H. }
  apply Hsplit in H' as [H'|H']; [right|by left].
  by eapply load_calls_open_exists.
Qed.
End RenderMore.

Section Whitespace.
Variable ucd : unicode_db.
Variable DESKTOP_PATH : list N.

Lemma glyphs_spaces w fp n :
  glyphs ucd w fp (replicate n SPACE) = Return (replicate n PLACEHOLDER).
Proof. induction n as [|n IH]; [done|]. simpl. by rewrite IH. Qed.

Lemma load_calls_spaces w fp n : load_calls ucd w fp (replicate n SPACE) = [].
Proof. induction n as [|n IH]; [done|]. simpl. exact IH. Qed.

Lemma paste_loop_transparent gs : forall img x0 x y,
  (forall x y, getpixel img x y = TRANSPARENT) ->
  Forall (fun g => forall i y, getpixel g i y = TRANSPARENT) gs ->
  getpixel (paste_loop (layout gs) img x0) x y = TRANSPARENT.
Proof.
  induction gs as [|g rest IH]; intros img x0 x y Himg Hgs; simpl; [done|].
  apply Forall_cons in Hgs as [Hg Hrest]. apply IH; [|done].
  intros x' y'. unfold paste; simpl.
  destruct (in_box _ _ _ _); [|done]. by rewrite Himg, !Hg.
Qed.

Lemma widths_spaces n :
  sum_list (map width (replicate n PLACEHOLDER)) = SPACE_WIDTH * n.
Proof. induction n as [|n IH]; [done|]. simpl in *. rewrite IH. unfold SPACE_WIDTH, width. simpl. lia. Qed.

(** X11. The renderer has no guard of its own against blank text: a text of
    [n + 1] spaces is rendered without reading any file, as a fully
    transparent canvas of [SPACE_WIDTH * (n + 1)] columns and one row. *)
Theorem whitespace_text_rendered n filename fp w :
  fault w (CallSave (os_path_join DESKTOP_PATH [filename])) = None ->
  exists canvas,
    generate_image_with_filename ucd DESKTOP_PATH (replicate (S n) SPACE) filename fp w
    = (saved [] (os_path_join DESKTOP_PATH [filename]) canvas w,
       (Some filename, None))
    /\ size canvas = (SPACE_WIDTH * S n, 1)
    /\ forall x y, getpixel canvas x y = TRANSPARENT.
Proof.
  intros Hsave. rewrite generate_run, Hsave, load_calls_spaces.
  unfold compose_result. rewrite glyphs_spaces.
  destruct (canvas_of_ok PLACEHOLDER (replicate n PLACEHOLDER)) as [canvas Hc].
  change (PLACEHOLDER :: replicate n PLACEHOLDER)
    with (replicate (S n) PLACEHOLDER) in Hc.
  rewrite Hc. exists canvas. split; [done|]. split.
  - destruct (canvas_of_size _ _ Hc) as (g0 & r & Heq & ->).
    rewrite widths_spaces. simpl in Heq. inversion Heq; subst. reflexivity.
  - intros x y. unfold canvas_of, blank_canvas in Hc.
    cbn [replicate head fmap option_fmap option_map Image_new_canvas] in Hc.
    injection Hc as <-.
    apply (paste_loop_transparent (PLACEHOLDER :: replicate n PLACEHOLDER));
      [intros; reflexivity|].
    apply Forall_forall. intros g Hg i y'.
    change (g ∈ replicate (S n) PLACEHOLDER) in Hg.
    apply elem_of_replicate in Hg as [-> _]. reflexivity.
Qed.
End Whitespace.

Section PixelSpec.
Variable ucd : unicode_db.

Lemma offset_cover w fp text n x :
  n <= length text -> x < offset ucd w fp text n ->
  exists k c, text !! k = Some c
    /\ offset ucd w fp text k <= x
    /\ x < offset ucd w fp text k + advance_width ucd w fp c.
Proof.
  induction n as [|n IH]; intros Hn Hx.
  { unfold offset in Hx. simpl in Hx. lia. }
  destruct (decide (x < offset ucd w fp text n)) as [Hlt|Hge].
  { apply IH; [lia|done]. }
  destruct (lookup_lt_is_Some_2 text n) as [c Hc]; [lia|].
  exists n, c. split; [done|]. split; [lia|].
  by rewrite <- (offset_step ucd w fp text n c Hc).
Qed.

(** X12. Every column of a canvas that [compose] returns lies in the columns
    of exactly the character found there by the offsets, and every pixel of
    that column is what that character's image leaves on a transparent
    canvas: nothing of the canvas is left unspecified. *)
Theorem canvas_pixels_complete text fp w w' canvas :
  compose ucd text fp w = (w', Return canvas) ->
  forall x, x < width canvas ->
    exists k c g,
      text !! k = Some c
      /\ char_image ucd w fp c = Some g
      /\ offset ucd w fp text k <= x
      /\ x < offset ucd w fp text k + width g
      /\ forall y, getpixel canvas x y = painted g (x - offset ucd w fp text k) y.
Proof.
  intros Hrun x Hx. apply compose_returns in Hrun.
  destruct (compose_pixels ucd w fp text canvas Hrun) as [Hw Hpx].
  rewrite Hw in Hx.
  destruct (offset_cover w fp text (length text) x) as (k & c & Hk & Hlo & Hhi);
    [done|done|].
  destruct (Hpx k c Hk) as (g & Hg & Hwg & Hp).
  exists k, c, g. split; [done|]. split; [done|]. split; [done|].
  split; [lia|]. intros y.
  rewrite <- (Hp (x - offset ucd w fp text k) y) by lia.
  f_equal. lia.
Qed.

Lemma on_transparent_clear p : alpha p = 0%N -> on_transparent p = TRANSPARENT.
Proof.
  intros H. unfold on_transparent, blend_pixel, BLEND. rewrite H.
  by rewrite !N.mul_0_r.
Qed.

(** X13. Inside a glyph, an opaque pixel appears on the canvas unchanged and
    a fully transparent pixel leaves the canvas transparent. *)
Theorem glyph_pixels_on_canvas text fp w w' canvas k c g i y :
  compose ucd text fp w = (w', Return canvas) ->
  text !! k = Some c ->
  char_image ucd w fp c = Some g ->
  i < width g -> y < height g ->
  (valid_pixel (getpixel g i y) = true -> opaque (getpixel g i y) = true ->
   getpixel canvas (offset ucd w fp text k + i) y = getpixel g i y)
  /\ (alpha (getpixel g i y) = 0%N ->
      getpixel canvas (offset ucd w fp text k + i) y = TRANSPARENT).
Proof.
  intros Hrun Hk Hg Hi Hy. apply compose_returns in Hrun.
  destruct (compose_pixels ucd w fp text canvas Hrun) as [_ Hpx].
  destruct (Hpx k c Hk) as (g' & Hg' & _ & Hp).
  assert (g' = g) as -> by congruence.
  rewrite (Hp i y Hi). unfold painted.
  rewrite (proj2 (Nat.ltb_lt _ _) Hy). split.
  - apply on_transparent_opaque.
  - apply on_transparent_clear.
Qed.
End PixelSpec.

Section Twice.
Variable ucd : unicode_db.
Variable DESKTOP_PATH : list N.

Lemma glyph_other_file w w1 fp p c :
  fault w1 = fault w ->
  (forall q, q <> p -> files w1 !! q = files w !! q) ->
  char_img_path ucd c fp <> Some p ->
  glyph ucd w1 fp c = glyph ucd w fp c.
Proof.
  intros Hfault Hfiles Hc. unfold glyph.
  destruct (c =? SPACE)%N; [done|].
  destruct (char_img_path ucd c fp) as [q|]; [|done].
  rewrite Hfault, Hfiles; [done|congruence].
Qed.

Lemma glyphs_other_file w w1 fp p text :
  fault w1 = fault w ->
  (forall q, q <> p -> files w1 !! q = files w !! q) ->
  (forall c, c ∈ text -> char_img_path ucd c fp <> Some p) ->
  glyphs ucd w1 fp text = glyphs ucd w fp text.
Proof.
  intros Hfault Hfiles. induction text as [|c rest IH]; intros Hp; [done|].
  simpl. rewrite (glyph_other_file w w1 fp p c Hfault Hfiles); [|apply Hp; by left].
  rewrite IH; [done|]. intros c' Hc'. apply Hp. by right.
Qed.

(** X14. Rendering again, with the same arguments, in the world a successful
    render left behind succeeds again and changes no file, provided the
    output path is not the glyph file of a character of the text. *)
Theorem render_twice text filename fp w w1 :
  generate_image_with_filename ucd DESKTOP_PATH text filename fp w
    = (w1, (Some filename, None)) ->
  (forall c, c ∈ text ->
     char_img_path ucd c fp <> Some (os_path_join DESKTOP_PATH [filename])) ->
  exists w2,
    generate_image_with_filename ucd DESKTOP_PATH text filename fp w1
      = (w2, (Some filename, None))
    /\ files w2 = files w1.
Proof.
  rewrite generate_run. intros Hrun Hp.
  destruct (compose_result ucd w fp text) as [canvas|e] eqn:Hc.
  2:{ destruct (handler_shape e) as [m Hm]. rewrite Hm in Hrun. inversion Hrun. }
  destruct (fault w _) as [e|] eqn:Hsave.
  { destruct (handler_shape e) as [m Hm]. rewrite Hm in Hrun. inversion Hrun. }
  injection Hrun as <-. rewrite generate_run.
  assert (compose_result ucd
            (saved (load_calls ucd w fp text) (os_path_join DESKTOP_PATH [filename]) canvas w)
            fp text = Return canvas) as Hc1.
  { unfold compose_result in *.
    rewrite (glyphs_other_file w _ fp (os_path_join DESKTOP_PATH [filename]) text);
      [done|done| |done].
    intros q Hq. simpl. by rewrite lookup_insert_ne. }
  change (join_step DESKTOP_PATH filename)
    with (os_path_join DESKTOP_PATH [filename]).
  rewrite Hc1. cbn [fault saved]. rewrite Hsave.
  eexists. split; [reflexivity|]. simpl. apply insert_insert_eq.
Qed.
End Twice.

Section Paths.
Lemma endswith_sep_app a b : b <> [] -> endswith_sep (a ++ b) = endswith_sep b.
Proof.
  intros Hb. unfold endswith_sep. rewrite last_app.
  destruct (last b) eqn:E; [done|]. by apply last_None in E.
Qed.

Lemma join_step_plain a b :
  a <> [] -> endswith_sep a = false -> startswith_sep b = false ->
  join_step a b = a ++ SEP :: b.
Proof.
  intros Ha He Hb. unfold join_step. rewrite Hb, He.
  by destruct a.
Qed.

Lemma font_base_end font color :
  endswith_sep color = false ->
  font_base font color <> [] /\ endswith_sep (font_base font color) = false.
Proof.
  intros Hc. split; [unfold font_base; simpl; discriminate|]. unfold font_base.
  assert (forall a b : list N, b <> [] -> a ++ b <> []) as Hne
    by (intros [|x a] b Hb; [done|discriminate]).
  assert (lit "-" ++ color <> []) as H1 by discriminate.
  rewrite (endswith_sep_app (lit "Assets/FONTS/Font-")) by auto.
  rewrite (endswith_sep_app (str_of_int font)) by auto.
  rewrite (endswith_sep_app (lit "/Font-")) by auto.
  rewrite (endswith_sep_app (str_of_int font)) by auto.
  destruct color as [|c color]; [reflexivity|].
  change (lit "-" ++ c :: color) with ([45%N] ++ c :: color).
  by rewrite endswith_sep_app.
Qed.

Lemma font_root font color name c0 rest :
  endswith_sep color = false ->
  name = c0 :: rest -> (c0 =? SEP)%N = false -> endswith_sep name = false ->
  os_path_join (font_base font color) [name] = font_base font color ++ SEP :: name
  /\ font_base font color ++ SEP :: name <> []
  /\ endswith_sep (font_base font color ++ SEP :: name) = false.
Proof.
  intros Hc -> Hc0 He. destruct (font_base_end font color Hc) as [Hne Hend].
  split; [|split].
  - unfold os_path_join. simpl. by apply join_step_plain.
  - by destruct (font_base font color).
  - by rewrite endswith_sep_app.
Qed.
End Paths.

Section Table.
Lemma snd_inj {A B} (l : list (A * B)) a b x :
  NoDup (map snd l) -> (a, x) ∈ l -> (b, x) ∈ l -> a = b.
Proof.
  induction l as [|[a0 x0] l IH]; intros Hnd Ha Hb; [by apply elem_of_nil in Ha|].
  simpl in Hnd. apply NoDup_cons in Hnd as [Hnot Hnd].
  apply elem_of_cons in Ha as [Ha|Ha]; apply elem_of_cons in Hb as [Hb|Hb].
  - congruence.
  - inversion Ha; subst. exfalso. apply Hnot.
    apply list_elem_of_In, in_map_iff. exists (b, x0). split; [done|].
    by apply list_elem_of_In.
  - inversion Hb; subst. exfalso. apply Hnot.
    apply list_elem_of_In, in_map_iff. exists (a, x0). split; [done|].
    by apply list_elem_of_In.
  - by apply IH.
Qed.

Lemma SPECIAL_CHARACTERS_labels :
  NoDup (map snd SPECIAL_CHARACTERS_items)
  /\ Forall (fun kv => startswith_sep (snd kv) = false /\ snd kv <> [])
            SPECIAL_CHARACTERS_items.
Proof.
  split.
  - apply (bool_decide_unpack _). vm_compute. reflexivity.
  - repeat (apply Forall_cons; split; [split; [reflexivity|discriminate]|]).
    apply Forall_nil_2.
Qed.

(** No two characters of the table share an asset name. *)
Lemma SPECIAL_CHARACTERS_inj a b l :
  SPECIAL_CHARACTERS !! a = Some l -> SPECIAL_CHARACTERS !! b = Some l -> a = b.
Proof.
  intros Ha Hb. apply elem_of_list_to_map_2 in Ha, Hb.
  eapply snd_inj; [apply SPECIAL_CHARACTERS_labels|done..].
Qed.

Lemma symbol_name_head c :
  startswith_sep (dict_get SPECIAL_CHARACTERS c [] ++ PNG) = false.
Proof.
  unfold dict_get. destruct (SPECIAL_CHARACTERS !! c) as [l|] eqn:E; [|done].
  apply elem_of_list_to_map_2 in E.
  destruct SPECIAL_CHARACTERS_labels as [_ H]. rewrite Forall_forall in H.
  destruct (H _ E) as [Hh Hne]. simpl in *. by destruct l.
Qed.
End Table.

Section Layout.
Variable ucd : unicode_db.

Lemma alpha_not_sep c : isalpha ucd c = true -> (c =? SEP)%N = false.
Proof.
  intros H. destruct (c =? SEP)%N eqn:E; [|done].
  apply N.eqb_eq in E. subst. discriminate H.
Qed.

Lemma digit_not_sep c : isdigit ucd c = true -> (c =? SEP)%N = false.
Proof.
  intros H. destruct (c =? SEP)%N eqn:E; [|done].
  apply N.eqb_eq in E. subst. discriminate H.
Qed.

Lemma case_folder_cases c :
  case_folder ucd c = lit "Upper-Case" \/ case_folder ucd c = lit "Lower-Case".
Proof. unfold case_folder. destruct (islower ucd c); auto. Qed.

Lemma char_img_path_layout font color c :
  endswith_sep color = false ->
  char_img_path ucd c (get_font_paths font color)
  = if isalpha ucd c then
      Some (font_base font color ++ lit "/Letters/" ++ case_folder ucd c
            ++ lit "/" ++ c :: lit ".png")
    else if isdigit ucd c then
      Some (font_base font color ++ lit "/Numbers/" ++ c :: lit ".png")
    else if (c =? SPACE)%N then None
    else
      Some (font_base font color ++ lit "/Symbols/"
            ++ dict_get SPECIAL_CHARACTERS c [] ++ lit ".png").
Proof.
  intros Hc. unfold char_img_path, get_font_paths. fold (font_base font color).
  destruct (font_root font color (lit "Letters") _ _ Hc eq_refl eq_refl eq_refl)
    as (HL & HLn & HLe).
  destruct (font_root font color (lit "Numbers") _ _ Hc eq_refl eq_refl eq_refl)
    as (HN & HNn & HNe).
  destruct (font_root font color (lit "Symbols") _ _ Hc eq_refl eq_refl eq_refl)
    as (HS & HSn & HSe).
  rewrite HL, HN, HS.
  destruct (isalpha ucd c) eqn:Ha; [|destruct (isdigit ucd c) eqn:Hd;
                                     [|destruct (c =? SPACE)%N; [done|]]].
  - f_equal. unfold os_path_join. cbn [fold_left].
    assert (startswith_sep (case_folder ucd c) = false
            /\ endswith_sep (case_folder ucd c) = false
            /\ case_folder ucd c <> []) as (F1 & F2 & F3).
    { destruct (case_folder_cases c) as [-> | ->]; done. }
    rewrite (join_step_plain _ (case_folder ucd c)); [|done..].
    rewrite join_step_plain.
    + rewrite <- !app_assoc. reflexivity.
    + by destruct (font_base font color).
    + rewrite endswith_sep_app by discriminate.
      destruct (case_folder_cases c) as [-> | ->]; reflexivity.
    + simpl. by apply alpha_not_sep.
  - f_equal. unfold os_path_join. cbn [fold_left].
    rewrite join_step_plain; [|done|done|simpl; by apply digit_not_sep].
    rewrite <- !app_assoc. reflexivity.
  - f_equal. unfold os_path_join. cbn [fold_left].
    rewrite join_step_plain; [|done|done|apply symbol_name_head].
    rewrite <- !app_assoc. reflexivity.
Qed.

(** X15. With the roots of [get_font_paths] (for a colour that does not end
    with a separator) the glyph of a letter is
    [Assets/FONTS/Font-n/Font-n-colour/Letters/<case folder>/<char>.png],
    that of a digit [.../Numbers/<char>.png], that of any other character
    but the space [.../Symbols/<name>.png], where the name is empty for a
    character outside the table. *)
Theorem asset_path_layout font color c :
  endswith_sep color = false ->
  char_img_path ucd c (get_font_paths font color)
  = if isalpha ucd c then
      Some (font_base font color ++ lit "/Letters/" ++ case_folder ucd c
            ++ lit "/" ++ c :: lit ".png")
    else if isdigit ucd c then
      Some (font_base font color ++ lit "/Numbers/" ++ c :: lit ".png")
    else if (c =? SPACE)%N then None
    else
      Some (font_base font color ++ lit "/Symbols/"
            ++ dict_get SPECIAL_CHARACTERS c [] ++ lit ".png").
Proof. exact (char_img_path_layout font color c). Qed.
End Layout.

Section Distinct.
Variable ucd : unicode_db.

(** The three shapes of the path of a character that is not unmapped. *)
Lemma resolved_path font color c p :
  endswith_sep color = false ->
  char_img_path ucd c (get_font_paths font color) = Some p ->
  unmapped ucd c = false ->
  (exists folder,
     (folder = lit "Upper-Case" \/ folder = lit "Lower-Case")
     /\ p = font_base font color ++ lit "/Letters/" ++ folder ++ lit "/"
            ++ c :: lit ".png")
  \/ p = font_base font color ++ lit "/Numbers/" ++ c :: lit ".png"
  \/ exists l, SPECIAL_CHARACTERS !! c = Some l
       /\ p = font_base font color ++ lit "/Symbols/" ++ l ++ lit ".png".
Proof.
  intros Hc Hp Hu. rewrite (char_img_path_layout ucd font color c Hc) in Hp.
  unfold unmapped in Hu. unfold dict_get in Hp.
  destruct (isalpha ucd c).
  { left. exists (case_folder ucd c). split; [apply case_folder_cases|].
    by injection Hp as <-. }
  destruct (isdigit ucd c).
  { right; left. by injection Hp as <-. }
  destruct (c =? SPACE)%N; [discriminate Hp|].
  destruct (SPECIAL_CHARACTERS !! c) as [l|]; [|discriminate Hu].
  right; right. exists l. split; [reflexivity|]. by injection Hp as <-.
Qed.

(** X16. With the roots of [get_font_paths], two distinct characters that
    are letters, digits or characters of the table never resolve to the same
    glyph file. *)
Theorem distinct_glyph_files font color a b pa pb :
  endswith_sep color = false ->
  char_img_path ucd a (get_font_paths font color) = Some pa ->
  char_img_path ucd b (get_font_paths font color) = Some pb ->
  unmapped ucd a = false -> unmapped ucd b = false ->
  a <> b -> pa <> pb.
Proof.
  intros Hc Ha Hb Ua Ub Hne Heq. subst pb.
  destruct (resolved_path font color a pa Hc Ha Ua)
    as [(fa & Hfa & Pa) | [Pa | (la & Ea & Pa)]];
  destruct (resolved_path font color b pa Hc Hb Ub)
    as [(fb & Hfb & Pb) | [Pb | (lb & Eb & Pb)]];
  rewrite Pa in Pb; apply app_inv_head in Pb;
  try (cbv in Pb; discriminate Pb).
  - destruct Hfa as [-> | ->], Hfb as [-> | ->];
      cbv in Pb; congruence.
  - cbv in Pb. congruence.
  - apply (app_inv_head (lit "/Symbols/")), app_inv_tail in Pb. subst lb.
    apply Hne. eapply SPECIAL_CHARACTERS_inj; eauto.
Qed.

(** X17. The glyph locator has three outcomes: [None] for the space, without
    touching the file system; a path that is a file, after one
    [os.path.isfile] call; the glyph-not-found error naming the character,
    after one [os.path.isfile] call on a path that is no file. *)
Theorem locator_outcome c fp w :
  (c = SPACE /\ get_character_image_path ucd c fp w = (w, Return None))
  \/ (exists p, char_img_path ucd c fp = Some p
        /\ is_Some (files w !! p)
        /\ get_character_image_path ucd c fp w
           = (log (CallIsFile p) w, Return (Some p)))
  \/ (exists p, char_img_path ucd c fp = Some p
        /\ files w !! p = None
        /\ get_character_image_path ucd c fp w
           = (log (CallIsFile p) w, Raise (image_not_found c))).
Proof.
  unfold get_character_image_path.
  destruct (char_img_path ucd c fp) as [p|] eqn:Hp.
  - right. unfold bind, os_path_isfile.
    destruct (files w !! p) as [f|] eqn:Hf.
    + left. exists p. rewrite Hf. eauto.
    + right. exists p. rewrite Hf. eauto.
  - left. split; [|reflexivity].
    unfold char_img_path in Hp. destruct fp as [[L Nm] S].
    destruct (isalpha ucd c); [done|]. destruct (isdigit ucd c); [done|].
    destruct (c =? SPACE)%N eqn:E; [by apply N.eqb_eq|done].
Qed.

Variable DESKTOP_PATH : list N.

(** X18. All the characters outside the letters, the digits, the space and
    the table resolve to the one file [.png] of the symbols folder: when that
    file is an image, each of them is drawn with it and a text made of them
    renders. *)
Theorem unmapped_drawn_with_dot_png text filename L Nm S w g :
  text <> [] ->
  forallb (unmapped ucd) text = true ->
  files w !! os_path_join S [lit ".png"] = Some (ImageFile g) ->
  fault w (CallOpen (os_path_join S [lit ".png"])) = None ->
  fault w (CallSave (os_path_join DESKTOP_PATH [filename])) = None ->
  (forall c, c ∈ text -> glyph_asset ucd w (L, Nm, S) c = Some g)
  /\ snd (generate_image_with_filename ucd DESKTOP_PATH text filename (L, Nm, S) w)
     = (Some filename, None).
Proof.
  intros Hne Hall Hfile Hopen Hsave.
  assert (forall c, c ∈ text -> glyph_asset ucd w (L, Nm, S) c = Some g) as Hg.
  { intros c Hc. rewrite forallb_forall in Hall.
    apply list_elem_of_In, Hall in Hc.
    destruct (unmapped_path ucd c L Nm S Hc) as [_ Hp].
    unfold glyph_asset. by rewrite Hp, Hfile, Hopen. }
  split; [exact Hg|]. rewrite generate_run.
  destruct (proj2 (compose_result_returns ucd w (L, Nm, S) text)) as [canvas ->].
  - split; [done|]. apply forallb_forall. intros c Hc.
    unfold drawable. rewrite (Hg c); [apply orb_true_r|by apply list_elem_of_In].
  - by rewrite Hsave.
Qed.
End Distinct.

Section UiFacts.
Variable ucd : unicode_db.
Variable py_int : list N -> outcome Z.
(** [generate_image], whatever function [ui.py] finds under this name. *)
Variable generate_image :
  list N -> list N -> font_paths -> M (option (list N) * option (list N)).

(** X19. For a text that is not blank and a font selection that is an
    integer, the callback of the user interface calls the renderer once, on
    the text, on the file name generated from the text and the clock and on
    the roots of the selected font and colour; it ends in the world the
    renderer left and shows one box after the closing events, if any: the
    success box with the file name when the renderer returned
    [(filename, None)], the error box with the description when it returned
    [(None, description)] with a description that is not empty, and the box
    of its own handler when the renderer raised. Nothing leaves the
    callback. *)
Theorem callback_reports_render g w font :
  py_int (font_var g) = Return font ->
  strip ucd (text_entry g) <> [] ->
  exists shown,
    (forall e, In e shown -> e = ShowInfo (lit "Info") CLOSING_MESSAGE \/ e = RootQuit)
    /\ (forall w' saved_as,
          generate_image (text_entry g)
            (generate_filename ucd (clock w) (text_entry g))
            (get_font_paths font (color_var g)) w
          = (w', Return (Some saved_as, None)) ->
          generate_and_display_image ucd py_int generate_image g w
          = (w',
             shown ++ [ShowInfo (lit "Success")
                         (lit "Image successfully generated and saved as: "
                          ++ saved_as)],
             None))
    /\ (forall w' c m,
          generate_image (text_entry g)
            (generate_filename ucd (clock w) (text_entry g))
            (get_font_paths font (color_var g)) w
          = (w', Return (None, Some (c :: m))) ->
          generate_and_display_image ucd py_int generate_image g w
          = (w',
             shown ++ [ShowError (lit "Error") (lit "Error: " ++ c :: m)],
             None))
    /\ (forall w' e,
          generate_image (text_entry g)
            (generate_filename ucd (clock w) (text_entry g))
            (get_font_paths font (color_var g)) w
          = (w', Raise e) ->
          generate_and_display_image ucd py_int generate_image g w
          = (w', shown ++ [ui_handler e], None)).
Proof.
  intros Hfont Hstrip.
  exists (if bool_decide (str_lower ucd (text_entry g) = lit "exit")
          then [ShowInfo (lit "Info") CLOSING_MESSAGE; RootQuit] else []).
  split; [|split; [|split]].
  - intros e He. destruct (bool_decide _); [|done].
    destruct He as [<-|[<-|[]]]; auto.
  - intros w' saved_as Hrun. unfold generate_and_display_image.
    rewrite Hfont. destruct (strip ucd (text_entry g)); [done|].
    by rewrite Hrun.
  - intros w' c m Hrun. unfold generate_and_display_image.
    rewrite Hfont. destruct (strip ucd (text_entry g)); [done|].
    by rewrite Hrun.
  - intros w' e Hrun. unfold generate_and_display_image.
    rewrite Hfont. destruct (strip ucd (text_entry g)); [done|].
    by rewrite Hrun.
Qed.

(** X20. Typing "exit" (in any case) shows the closing message and quits the
    main loop, but the callback goes on: whatever the renderer is, it is
    called on the text like on any other, the callback ends in the world the
    renderer left and shows one more box. *)
Theorem exit_still_renders g w font :
  py_int (font_var g) = Return font ->
  str_lower ucd (text_entry g) = lit "exit" ->
  strip ucd (text_entry g) <> [] ->
  exists box,
    generate_and_display_image ucd py_int generate_image g w
    = (fst (generate_image (text_entry g)
              (generate_filename ucd (clock w) (text_entry g))
              (get_font_paths font (color_var g)) w),
       [ShowInfo (lit "Info") CLOSING_MESSAGE; RootQuit; box], None).
Proof.
  intros Hfont Hexit Hstrip. unfold generate_and_display_image.
  rewrite Hfont, Hexit. destruct (strip ucd (text_entry g)); [done|].
  destruct (generate_image _ _ _ _) as [w' [[img_path err]|e]];
    rewrite bool_decide_eq_true_2 by reflexivity; simpl; eauto.
Qed.
End UiFacts.

Section FontChange.
Variable py_int : list N -> outcome Z.


End FontChange.

Section Absolute.
Variable ucd : unicode_db.
Variable DESKTOP_PATH : list N.

(** X22. A file name that starts with a separator is taken as it is by
    [os.path.join]: a render that succeeds with such a name writes the canvas
    at that very path, not in the desktop folder. *)
Theorem absolute_filename_escapes text filename fp w w' :
  startswith_sep filename = true ->
  generate_image_with_filename ucd DESKTOP_PATH text filename fp w
    = (w', (Some filename, None)) ->
  os_path_join DESKTOP_PATH [filename] = filename
  /\ exists canvas, files w' = <[filename := ImageFile canvas]> (files w).
Proof.
  intros Habs.
  assert (os_path_join DESKTOP_PATH [filename] = filename) as Hp.
  { unfold os_path_join. simpl. unfold join_step. by rewrite Habs. }
  rewrite generate_run, Hp.
  destruct (compose_result ucd w fp text) as [canvas|e].
  2:{ destruct (handler_shape e) as [m ->]. intros H; inversion H. }
  destruct (fault w _) as [e|].
  { destruct (handler_shape e) as [m ->]. intros H; inversion H. }
  intros H. injection H as <-. split; [done|]. by exists canvas.
Qed.
End Absolute.

(* ===================================================================== *)
(** * The further properties on the sample desk *)
(* ===================================================================== *)

Lemma generate_filename_short_witness :
  generate_filename latin1_kana noon (lit "Metal Slug 3")
  = lit "Metal-Slug-3-20240131-120005.png".
Proof.
  rewrite generate_filename_short; [vm_compute; reflexivity | vm_compute; lia].
Defined.

Lemma generate_filename_long_witness :
  generate_filename latin1_kana noon (replicate 300 97%N) = replicate 255 97%N.
Proof.
  rewrite generate_filename_long; [vm_compute; reflexivity | vm_compute; lia].
Defined.

Lemma generate_filename_no_token_witness :
  generate_filename latin1_kana noon (lit "?! (;_;)") = lit "-20240131-120005.png".
Proof.
  rewrite generate_filename_no_token; vm_compute; reflexivity.
Defined.

(** "AZ": the file of [Z] is no image. *)
Lemma undecodable_asset_reported_witness :
  exists cs,
    Forall (asset_read latin1_kana blue_font (lit "AZ")) cs
    /\ render (lit "AZ")
       = (logs cs desk, (None, Some (lit "Error: Unsupported image format"))).
Proof.
  apply (undecodable_asset_reported latin1_kana HOME_DESKTOP (lit "A") 90%N []
           OUT blue_font desk Z_PNG).
  - vm_compute. reflexivity.
  - discriminate.
  - vm_compute. reflexivity.
  - vm_compute. reflexivity.
  - reflexivity.
Defined.

(** "Ab": the font of the desk has no small [b]. *)
Lemma missing_asset_reported_witness :
  exists cs,
    Forall (asset_read latin1_kana blue_font (lit "Ab")) cs
    /\ render (lit "Ab")
       = (logs cs desk, (None, Some (lit "Image not found for character 'b'"))).
Proof.
  apply (missing_asset_reported latin1_kana HOME_DESKTOP (lit "A") 98%N []
           OUT blue_font desk B_SMALL_PNG).
  - vm_compute. reflexivity.
  - discriminate.
  - vm_compute. reflexivity.
  - vm_compute. reflexivity.
Defined.

(** "A" on the locked desk. *)
Lemma failed_save_reported_witness :
  exists cs,
    Forall (asset_read latin1_kana blue_font (lit "A")) cs
    /\ generate_image_with_filename latin1_kana HOME_DESKTOP (lit "A") OUT
         blue_font locked_desk
       = (log (CallSave DESK_OUT) (logs cs locked_desk), handler permission_denied)
    /\ files (log (CallSave DESK_OUT) (logs cs locked_desk)) = files locked_desk.
Proof.
  apply (failed_save_reported latin1_kana HOME_DESKTOP (lit "A") OUT blue_font
           locked_desk permission_denied).
  - discriminate.
  - vm_compute. reflexivity.
  - reflexivity.
Defined.

(** "AB" with a truncated [B.png]. *)
Lemma read_fault_reported_witness :
  exists cs,
    Forall (asset_read latin1_kana blue_font (lit "AB")) cs
    /\ generate_image_with_filename latin1_kana HOME_DESKTOP (lit "AB") OUT
         blue_font truncated_desk
       = (logs cs truncated_desk,
          (None, Some (lit "An unexpected error occurred: image file is truncated."))).
Proof.
  apply (read_fault_reported latin1_kana HOME_DESKTOP (lit "A") 66%N [] OUT
           blue_font truncated_desk
           (lit "Assets/FONTS/Font-1/Font-1-Blue/Letters/Upper-Case/B.png")
           (ImageFile (solid 2 4 GREEN)) truncated).
  - vm_compute. reflexivity.
  - discriminate.
  - vm_compute. reflexivity.
  - vm_compute. reflexivity.
  - vm_compute. reflexivity.
Defined.

Lemma opens_only_existing_files_witness : is_Some (files desk !! A_PNG).
Proof.
  destruct (opens_only_existing_files latin1_kana HOME_DESKTOP (lit "A") OUT
              blue_font desk A_PNG) as [H|H].
  - assert (trace (fst (render (lit "A")))
            = [CallSave DESK_OUT; CallOpen A_PNG; CallIsFile A_PNG]) as Htrace
      by (vm_compute; reflexivity).
    unfold render in Htrace. rewrite Htrace.
    apply elem_of_cons. right. apply elem_of_cons. by left.
  - by apply elem_of_nil in H.
  - exact H.
Defined.

Lemma whitespace_text_rendered_witness :
  exists canvas,
    render (lit "   ") = (saved [] DESK_OUT canvas desk, (Some OUT, None))
    /\ size canvas = (90, 1)
    /\ forall x y, getpixel canvas x y = TRANSPARENT.
Proof.
  apply (whitespace_text_rendered latin1_kana HOME_DESKTOP 2 OUT blue_font desk).
  reflexivity.
Defined.

Lemma compose_AB : snd (compose latin1_kana (lit "AB") blue_font desk) = Return canvas_AB.
Proof. vm_compute. reflexivity. Qed.

(** Column 4 of "AB" is column 1 of [B]. *)
Lemma canvas_pixels_complete_witness :
  exists k c g,
    lit "AB" !! k = Some c
    /\ char_image latin1_kana desk blue_font c = Some g
    /\ offset latin1_kana desk blue_font (lit "AB") k <= 4
    /\ 4 < offset latin1_kana desk blue_font (lit "AB") k + width g
    /\ forall y, getpixel canvas_AB 4 y
                 = painted g (4 - offset latin1_kana desk blue_font (lit "AB") k) y.
Proof.
  apply (canvas_pixels_complete latin1_kana (lit "AB") blue_font desk _ canvas_AB
           (pair_of_snd _ _ compose_AB)).
  vm_compute. lia.
Defined.

Lemma glyph_pixels_on_canvas_witness : getpixel canvas_AB 3 0 = GREEN.
Proof.
  assert (char_image latin1_kana desk blue_font 66 = Some (solid 2 4 GREEN)) as Hg
    by (vm_compute; reflexivity).
  assert (0 < width (solid 2 4 GREEN)) as Hi by (vm_compute; lia).
  assert (0 < height (solid 2 4 GREEN)) as Hy by (vm_compute; lia).
  destruct (glyph_pixels_on_canvas latin1_kana (lit "AB") blue_font desk _ canvas_AB
              1 66%N (solid 2 4 GREEN) 0 0 (pair_of_snd _ _ compose_AB) eq_refl
              Hg Hi Hy) as [Hopaque _].
  assert (offset latin1_kana desk blue_font (lit "AB") 1 + 0 = 3) as Hoff
    by (vm_compute; reflexivity).
  rewrite Hoff in Hopaque. rewrite Hopaque; reflexivity.
Defined.

Lemma render_twice_witness :
  exists w2,
    generate_image_with_filename latin1_kana HOME_DESKTOP (lit "A") OUT blue_font
      (fst (render (lit "A")))
    = (w2, (Some OUT, None))
    /\ files w2 = files (fst (render (lit "A"))).
Proof.
  assert (snd (render (lit "A")) = (Some OUT, None)) as Hrun
    by (vm_compute; reflexivity).
  apply pair_of_snd in Hrun.
  apply (render_twice latin1_kana HOME_DESKTOP (lit "A") OUT blue_font desk _ Hrun).
  intros c Hc. apply list_elem_of_singleton in Hc. subst c.
  vm_compute. discriminate.
Defined.

Lemma asset_path_layout_witness :
  char_img_path latin1_kana 65 (get_font_paths 1 (lit "Blue")) = Some A_PNG.
Proof.
  rewrite asset_path_layout; [vm_compute; reflexivity | reflexivity].
Defined.

Lemma distinct_glyph_files_witness : A_PNG <> lit "Assets/FONTS/Font-1/Font-1-Blue/Letters/Upper-Case/B.png".
Proof.
  apply (distinct_glyph_files latin1_kana 1 (lit "Blue") 65 66).
  - reflexivity.
  - vm_compute. reflexivity.
  - vm_compute. reflexivity.
  - vm_compute. reflexivity.
  - vm_compute. reflexivity.
  - discriminate.
Defined.

(** On the dotted desk the euro sign and the pound sign are drawn. *)
Lemma unmapped_drawn_with_dot_png_witness :
  snd (generate_image_with_filename latin1_kana HOME_DESKTOP [EURO; 163%N] OUT
         blue_font dotted_desk)
  = (Some OUT, None).
Proof.
  apply (unmapped_drawn_with_dot_png latin1_kana HOME_DESKTOP [EURO; 163%N] OUT
           (fst (fst blue_font)) (snd (fst blue_font)) (snd blue_font)
           dotted_desk (solid 5 4 GREEN)).
  - discriminate.
  - vm_compute. reflexivity.
  - vm_compute. reflexivity.
  - reflexivity.
  - reflexivity.
Defined.


(** "AB" with the marking renderer: the mark is in the log and the success
    box names the generated file. *)
Lemma callback_reports_render_witness :
  exists shown,
    generate_and_display_image latin1_kana int_1_to_5 marking_renderer
      AB_widgets desk
    = (log (CallSave (lit "AB-20240131-120005.png")) desk,
       shown ++ [ShowInfo (lit "Success")
                   (lit "Image successfully generated and saved as: AB-20240131-120005.png")],
       None).
Proof.
  destruct (callback_reports_render latin1_kana int_1_to_5 marking_renderer
              AB_widgets desk 1%Z) as (shown & _ & Hok & _).
  - reflexivity.
  - vm_compute. discriminate.
  - exists shown. apply Hok. reflexivity.
Defined.

Lemma exit_still_renders_witness :
  exists box,
    generate_and_display_image latin1_kana int_1_to_5 marking_renderer
      exit_widgets desk
    = (log (CallSave (lit "Exit-20240131-120005.png")) desk,
       [ShowInfo (lit "Info") CLOSING_MESSAGE; RootQuit; box], None).
Proof.
  destruct (exit_still_renders latin1_kana int_1_to_5 marking_renderer
              exit_widgets desk 1%Z) as [box Hbox].
  - reflexivity.
  - vm_compute. reflexivity.
  - vm_compute. discriminate.
  - exists box. rewrite Hbox. reflexivity.
Defined.



Lemma absolute_filename_escapes_witness :
  exists canvas,
    files (fst (generate_image_with_filename latin1_kana HOME_DESKTOP (lit "A")
                  TMP_OUT blue_font desk))
    = <[TMP_OUT := ImageFile canvas]> (files desk).
Proof.
  assert (snd (generate_image_with_filename latin1_kana HOME_DESKTOP (lit "A")
                 TMP_OUT blue_font desk) = (Some TMP_OUT, None)) as Hrun
    by (vm_compute; reflexivity).
  apply pair_of_snd in Hrun.
  destruct (absolute_filename_escapes latin1_kana HOME_DESKTOP (lit "A") TMP_OUT
              blue_font desk _ eq_refl Hrun) as [_ H].
  exact H.
Defined.
